(** * webhook-app: a shallow embedding of [server.js]

    The server keeps three pieces of state: the document [configs.json]
    (a JSON object mapping a config name to its rule array), the array
    [webhooks] of received events and the array [sseClients] of open
    event-stream responses.  Every synchronous route handler runs to
    completion before the next callback starts, so a handler is a function
    from the state before it to its outcome and the state after it.

    Conventions of the embedding:
    - a JavaScript string is a [string] of code units below 256;
    - a JSON number is carried as an integer (no handler computes with one
      except [webhooks.length + 1]); the numbers that [JSON.stringify] does
      not keep, -0 and the non-finite ones, have no value in the model, and
      no handler looks inside a rules array;
    - arrays are lists without the 2^32-1 length limit;
    - [JSON.stringify] followed by [JSON.parse] keeps the own enumerable
      properties of the configs object and every value built from [null],
      booleans, integers, strings, arrays and objects; the document is
      carried as such values;
    - file-system failures are not modelled. *)

From Stdlib Require Import ZArith Lia List Ascii String.
From stdpp Require Import gmap strings list fin_maps.

Local Open Scope Z_scope.

(** ** JavaScript values and the operators the handlers use *)

Module Js.

(** The values a handler can meet: what [JSON.parse] builds, [undefined],
    and the two kinds of object reachable through [Object.prototype]. *)
#[local] Set Warnings "-register-all".
Inductive JsValue : Type :=
| JUndefined
| JNull
| JBool (b : bool)
| JNum (n : Z)
| JStr (s : string)
| JArr (items : list JsValue)
| JObj (props : list (string * JsValue))
| JBuiltin (name : string)      (* a function object of Object.prototype *)
| JObjectPrototype.             (* the object %Object.prototype% itself *)

(** ToBoolean: [!v] is [negb (truthy v)]. *)
Definition truthy (v : JsValue) : bool :=
  match v with
  | JUndefined | JNull => false
  | JBool b => b
  | JNum n => negb (n =? 0)
  | JStr s => negb (String.eqb s "")
  | JArr _ | JObj _ | JBuiltin _ | JObjectPrototype => true
  end.

(** [Array.isArray(v)] *)
Definition isArray (v : JsValue) : bool :=
  match v with JArr _ => true | _ => false end.

(** WhiteSpace and LineTerminator code units below 256:
    TAB, LF, VT, FF, CR, SP and NBSP. *)
Definition is_white (c : ascii) : bool :=
  match Ascii.nat_of_ascii c with
  | 9 | 10 | 11 | 12 | 13 | 32 | 160 => true
  | _ => false
  end%nat.

Fixpoint trimStart (s : string) : string :=
  match s with
  | EmptyString => EmptyString
  | String c s' => if is_white c then trimStart s' else s
  end.

Fixpoint rev_append (s acc : string) : string :=
  match s with
  | EmptyString => acc
  | String c s' => rev_append s' (String c acc)
  end.

Definition reverse (s : string) : string := rev_append s EmptyString.

(** [String.prototype.trim] *)
Definition trim (s : string) : string :=
  reverse (trimStart (reverse (trimStart s))).

(** [v.trim()] for an arbitrary value [v] that is already known to be
    truthy: only strings have a callable [trim]; on every other JSON value
    the member is [undefined] or not callable and the call throws
    [TypeError]. *)
Definition call_trim (v : JsValue) : option string :=
  match v with
  | JStr s => Some (trim s)
  | _ => None
  end.

(** The members of [Object.prototype].  Eleven are methods; [__proto__]
    is an accessor whose getter returns the prototype of the receiver,
    which for an object built by [JSON.parse] or an object literal is
    [Object.prototype]. *)
Definition object_prototype_methods : list string :=
  [ "constructor"; "hasOwnProperty"; "isPrototypeOf";
    "propertyIsEnumerable"; "toLocaleString"; "toString"; "valueOf";
    "__defineGetter__"; "__defineSetter__"; "__lookupGetter__";
    "__lookupSetter__" ]%string.

Definition object_prototype_get (k : string) : JsValue :=
  if bool_decide (k ∈ object_prototype_methods) then JBuiltin k
  else if String.eqb k "__proto__" then JObjectPrototype
  else JUndefined.

(** [o[k]] for an ordinary object [o] whose own properties are [own] and
    whose prototype is [Object.prototype]: the own property when there is
    one, the inherited member otherwise. *)
Definition obj_get (own : gmap string JsValue) (k : string) : JsValue :=
  match own !! k with
  | Some v => v
  | None => object_prototype_get k
  end.

(** [o[k] = v] on such an object, as far as its own properties go.  An
    inherited method is a writable data property, so the assignment
    creates an own property that shadows it.  [__proto__] is an accessor:
    the assignment runs its setter, which replaces the prototype of [o]
    (when [v] is an object or [null]) and creates no own property. *)
Definition obj_set (own : gmap string JsValue) (k : string) (v : JsValue)
  : gmap string JsValue :=
  match own !! k with
  | Some _ => <[k := v]> own
  | None => if String.eqb k "__proto__" then own else <[k := v]> own
  end.

(** [delete o[k]]: removes an own property, never an inherited one. *)
Definition obj_delete (own : gmap string JsValue) (k : string)
  : gmap string JsValue :=
  delete k own.

(** Own property of a parsed JSON object; [JSON.parse] keeps the last of
    several members with the same key. *)
Fixpoint own_prop (props : list (string * JsValue)) (k : string)
  : option JsValue :=
  match props with
  | [] => None
  | (k', v) :: rest =>
      match own_prop rest k with
      | Some w => Some w
      | None => if String.eqb k' k then Some v else None
      end
  end.

(** [const { k } = body] for the field names the handlers destructure
    ([name], [rules], [url], [payload]); none of them is an index,
    [length] or a member of a built-in prototype, so on an array or a
    primitive the result is [undefined].  Destructuring [undefined] or
    [null] throws [TypeError]: the result is then [None]. *)
Definition destructure (body : JsValue) (k : string) : option JsValue :=
  match body with
  | JUndefined | JNull => None
  | JObj props =>
      Some (match own_prop props k with
            | Some v => v
            | None => object_prototype_get k
            end)
  | _ => Some JUndefined
  end.

End Js.
Export Js.

(** ** Outcome of a handler *)

(** A response stream is identified by the order in which the server
    created it. *)
Definition Res : Type := nat.

Inductive Outcome : Type :=
| Json (status : Z) (body : JsValue)   (* res.status(status).json(body) *)
| Throws (err : string)                (* an exception leaves the handler *)
| Streaming (res : Res).               (* the response stays open *)

Definition ok_false (msg : string) : JsValue :=
  JObj [("ok", JBool false); ("error", JStr msg)]%string.

(** ** The config store and its CRUD handlers *)

Module ConfigStore.

(** The content of [configs.json]: the members of its top-level object. *)
Abbreviation Document := (gmap string JsValue).

(** [readConfigs()]: the own properties of the parsed object. *)
Definition readConfigs (file : Document) : gmap string JsValue := file.

(** [writeConfigs(configs)]: the document now holds the own properties of
    [configs], with values carried as [JSON.stringify] keeps them (see the
    conventions at the head of the file). *)
Definition writeConfigs (configs : gmap string JsValue) : Document := configs.

(** [GET /api/configs/:name] *)
Definition get_config (name : string) (file : Document) : Outcome :=
  let configs := readConfigs file in
  if negb (truthy (obj_get configs name)) then
    Json 404 (ok_false "Config not found")
  else
    Json 200 (JObj [("ok", JBool true); ("name", JStr name);
                    ("rules", obj_get configs name)]%string).

(** [POST /api/configs] *)
Definition post_configs (body : JsValue) (file : Document)
  : Outcome * Document :=
  match destructure body "name", destructure body "rules" with
  | Some name, Some rules =>
      if negb (truthy name) then
        (Json 400 (ok_false "Name is required"), file)
      else
        match call_trim name with
        | None => (Throws "TypeError: name.trim is not a function", file)
        | Some trimmed =>
            if negb (truthy (JStr trimmed)) then
              (Json 400 (ok_false "Name is required"), file)
            else if negb (truthy rules) || negb (isArray rules) then
              (Json 400 (ok_false "Rules array is required"), file)
            else
              let configs := readConfigs file in
              let configs := obj_set configs trimmed rules in
              (Json 200 (JObj [("ok", JBool true);
                               ("name", JStr trimmed)]%string),
               writeConfigs configs)
        end
  | _, _ =>
      (Throws "TypeError: Cannot destructure property of req.body", file)
  end.

(** [DELETE /api/configs/:name] *)
Definition delete_config (name : string) (file : Document)
  : Outcome * Document :=
  let configs := readConfigs file in
  if negb (truthy (obj_get configs name)) then
    (Json 404 (ok_false "Config not found"), file)
  else
    let configs := obj_delete configs name in
    (Json 200 (JObj [("ok", JBool true)]%string), writeConfigs configs).

(** The request body [{ name, rules }] a client sends to save. *)
Definition save_body (name rules : JsValue) : JsValue :=
  JObj [("name", name); ("rules", rules)]%string.

(** Every config of the document is an array: true of the empty document
    and kept by every handler, since only a save writes a value. *)
Definition all_arrays (file : Document) : Prop :=
  forall k v, file !! k = Some v -> isArray v = true.

(** The name is one that an object inherits from [Object.prototype]. *)
Definition inherited (name : string) : bool :=
  truthy (object_prototype_get name).

End ConfigStore.

(** ** The event log, the event-stream subscribers and the server state *)

Module Server.

(** One received webhook call.  [receivedAt] is the time value, in
    milliseconds since the epoch, of the [Date] the handler creates;
    [toISOString] renders that instant.  [headers] is the object literal
    the handler builds. *)
Record Event : Type := {
  id : Z;
  receivedAt : Z;
  headers : JsValue;
  body : JsValue
}.

(** What [res.write] puts on an event stream:
    [data: ${JSON.stringify(event)}\n\n]. *)
Inductive Chunk : Type :=
| SseData (event : Event).

Record State : Type := {
  configs_file : gmap string JsValue;   (* the document configs.json *)
  webhooks : list Event;                (* const webhooks = [] *)
  sseClients : list Res;                (* const sseClients = [] *)
  wire : gmap Res (list Chunk);         (* chunks written to each response *)
  next_res : Res                        (* identity of the next response *)
}.

Definition init : State :=
  {| configs_file := ∅; webhooks := []; sseClients := []; wire := ∅;
     next_res := 0%nat |}.

(** [res.write(chunk)] *)
Definition write (res : Res) (chunk : Chunk) (w : gmap Res (list Chunk))
  : gmap Res (list Chunk) :=
  <[res := (w !!! res) ++ [chunk]]> w.

(** Everything written so far to the response [res]. *)
Definition received (s : State) (res : Res) : list Chunk := wire s !!! res.

(** The event built by [POST /api/webhook/receive]; [now] is the clock
    reading taken by [new Date()]. *)
Definition make_event (log : list Event) (req_headers : gmap string JsValue)
    (req_body : JsValue) (now : Z) : Event :=
  {| id := Z.of_nat (length log) + 1;
     receivedAt := now;
     headers := JObj [("content-type", obj_get req_headers "content-type");
                      ("user-agent", obj_get req_headers "user-agent")]%string;
     body := req_body |}.

(** [for (const client of sseClients) client.write(...)] *)
Definition fan_out (event : Event) (clients : list Res)
    (w : gmap Res (list Chunk)) : gmap Res (list Chunk) :=
  foldl (fun w client => write client (SseData event) w) w clients.

(** [POST /api/webhook/receive] *)
Definition post_webhook_receive (req_headers : gmap string JsValue)
    (req_body : JsValue) (now : Z) (s : State) : Outcome * State :=
  let event := make_event (webhooks s) req_headers req_body now in
  (Json 200 (JObj [("ok", JBool true); ("id", JNum (id event))]%string),
   {| configs_file := configs_file s;
      webhooks := webhooks s ++ [event];
      sseClients := sseClients s;
      wire := fan_out event (sseClients s) (wire s);
      next_res := next_res s |}).

(** [for (const event of webhooks) res.write(...)] *)
Definition replay (res : Res) (log : list Event) (w : gmap Res (list Chunk))
  : gmap Res (list Chunk) :=
  foldl (fun w event => write res (SseData event) w) w log.

(** [GET /api/events] *)
Definition get_events (s : State) : Outcome * State :=
  let res := next_res s in
  (Streaming res,
   {| configs_file := configs_file s;
      webhooks := webhooks s;
      sseClients := sseClients s ++ [res];
      wire := replay res (webhooks s) (wire s);
      next_res := S res |}).

(** [sseClients.indexOf(res)]: the first position of [res], or -1. *)
Fixpoint indexOf (l : list Res) (res : Res) : Z :=
  match l with
  | [] => -1
  | r :: l' =>
      if Nat.eqb r res then 0
      else let i := indexOf l' res in if i =? -1 then -1 else i + 1
  end.

(** [l.splice(idx, 1)] for [0 <= idx] *)
Definition splice1 (l : list Res) (idx : Z) : list Res :=
  take (Z.to_nat idx) l ++ drop (S (Z.to_nat idx)) l.

(** The [close] listener registered by [GET /api/events] for [res]. *)
Definition on_close (res : Res) (s : State) : State :=
  let idx := indexOf (sseClients s) res in
  if negb (idx =? -1) then
    {| configs_file := configs_file s;
       webhooks := webhooks s;
       sseClients := splice1 (sseClients s) idx;
       wire := wire s;
       next_res := next_res s |}
  else s.

Definition with_file (s : State) (file : gmap string JsValue) : State :=
  {| configs_file := file;
     webhooks := webhooks s;
     sseClients := sseClients s;
     wire := wire s;
     next_res := next_res s |}.

(** The callbacks the event loop runs, one at a time. *)
Inductive Callback : Type :=
| GET_config (name : string)
| POST_configs (req_body : JsValue)
| DELETE_config (name : string)
| POST_webhook_receive (req_headers : gmap string JsValue)
    (req_body : JsValue) (now : Z)
| GET_events
| Close (res : Res).

Inductive Reply : Type :=
| Replied (o : Outcome)
| Silent.                               (* a listener answers nobody *)

Definition handle (c : Callback) (s : State) : Reply * State :=
  match c with
  | GET_config name =>
      (Replied (ConfigStore.get_config name (configs_file s)), s)
  | POST_configs req_body =>
      let '(o, file) := ConfigStore.post_configs req_body (configs_file s) in
      (Replied o, with_file s file)
  | DELETE_config name =>
      let '(o, file) := ConfigStore.delete_config name (configs_file s) in
      (Replied o, with_file s file)
  | POST_webhook_receive req_headers req_body now =>
      let '(o, s') := post_webhook_receive req_headers req_body now s in
      (Replied o, s')
  | GET_events =>
      let '(o, s') := get_events s in (Replied o, s')
  | Close res => (Silent, on_close res s)
  end.

(** Running a sequence of callbacks: the replies, in order, and the final
    state. *)
Fixpoint run (tr : list Callback) (s : State) : list Reply * State :=
  match tr with
  | [] => ([], s)
  | c :: tr' =>
      let '(r, s1) := handle c s in
      let '(rs, s2) := run tr' s1 in
      (r :: rs, s2)
  end.

Definition state_after (tr : list Callback) (s : State) : State := (run tr s).2.
Definition replies (tr : list Callback) (s : State) : list Reply := (run tr s).1.

(** The [id] fields acknowledged by the receive calls of a run. *)
Definition ack_id (c : Callback) (r : Reply) : option JsValue :=
  match c, r with
  | POST_webhook_receive _ _ _, Replied (Json _ reply_body) =>
      destructure reply_body "id"
  | _, _ => None
  end.

Definition acked_ids (tr : list Callback) (s : State) : list JsValue :=
  omap (fun cr => ack_id cr.1 cr.2) (zip tr (replies tr s)).

Definition is_receive (c : Callback) : bool :=
  match c with POST_webhook_receive _ _ _ => true | _ => false end.

(** How many receive calls a run makes. *)
Fixpoint receive_count (tr : list Callback) : nat :=
  match tr with
  | [] => 0%nat
  | c :: tr' =>
      if is_receive c then S (receive_count tr') else receive_count tr'
  end.

(** The events the receive calls of a run append, in order. *)
Fixpoint published (tr : list Callback) (s : State) : list Event :=
  match tr with
  | [] => []
  | c :: tr' =>
      let s1 := (handle c s).2 in
      match c with
      | POST_webhook_receive h b now =>
          make_event (webhooks s) h b now :: published tr' s1
      | _ => published tr' s1
      end
  end.

(** The clock readings the receive calls of a run take, in order. *)
Definition clock_readings (tr : list Callback) : list Z :=
  omap (fun c => match c with
                 | POST_webhook_receive _ _ now => Some now
                 | _ => None
                 end) tr.

(** Largest id in a log, 0 for the empty log. *)
Definition max_id (log : list Event) : Z :=
  foldr (fun e m => Z.max (id e) m) 0 log.

(** The ids of a log are its positions, counted from 1. *)
Definition ids_are_positions (log : list Event) : Prop :=
  map id log = map Z.of_nat (seq 1 (length log)).

(** The array without the first occurrence of [res]: what the [close]
    listener leaves in [sseClients]. *)
Fixpoint remove_first (res : Res) (l : list Res) : list Res :=
  match l with
  | [] => []
  | r :: l' => if Nat.eqb r res then l' else r :: remove_first res l'
  end.

(** What holds of every state the server reaches: ids are positions, every
    response is registered at most once, only responses already created
    are registered, and nothing was written to a response not yet
    created. *)
Record Shape (s : State) : Prop := {
  shape_ids : ids_are_positions (webhooks s);
  shape_nodup : NoDup (sseClients s);
  shape_issued : forall r, r ∈ sseClients s -> (r < next_res s)%nat;
  shape_fresh : forall r, (next_res s <= r)%nat -> wire s !!! r = [];
  shape_file : ConfigStore.all_arrays (configs_file s)
}.

(** The callback is the [close] listener of [res]. *)
Definition closes (res : Res) (c : Callback) : bool :=
  match c with
  | Close r => Nat.eqb r res
  | _ => false
  end.

(** Each number is at most the next one. *)
Fixpoint nondecreasing (l : list Z) : bool :=
  match l with
  | [] => true
  | a :: l' =>
      match l' with
      | [] => true
      | b :: _ => (a <=? b) && nondecreasing l'
      end
  end.

(** Arrival time never decreases as the id grows. *)
Definition timestamps_follow_ids (log : list Event) : Prop :=
  forall e1 e2, e1 ∈ log -> e2 ∈ log -> id e1 < id e2 ->
                receivedAt e1 <= receivedAt e2.

(** The request headers restricted to the two names the handler reads. *)
Definition projected (req_headers : gmap string JsValue)
  : gmap string JsValue :=
  filter (fun kv => kv.1 = "content-type"%string \/ kv.1 = "user-agent"%string)
         req_headers.

End Server.

(** ** The outbound relay *)

Module Relay.

(** The second argument of [fetch]; [json_body] is the value whose
    [JSON.stringify] is sent. *)
Record FetchInit : Type := {
  method : string;
  content_type : string;
  json_body : JsValue
}.

Record Response : Type := {
  status : Z;
  statusText : string
}.

(** How an awaited promise settles; a rejection carries [err.message]. *)
Inductive Settled (A : Type) : Type :=
| Fulfilled (a : A)
| Rejected (message : string).
Arguments Fulfilled {A} a.
Arguments Rejected {A} message.

(** An asynchronous handler: it answers, or suspends at an [await] and
    resumes with what the promise settled to. *)
Inductive Async : Type :=
| Answer (o : Outcome)
| AwaitFetch (url : JsValue) (init : FetchInit)
    (resume : Settled Response -> Async)
| AwaitText (response : Response) (resume : Settled string -> Async).

(** [payload ?? {}] *)
Definition nullish_or_empty (payload : JsValue) : JsValue :=
  match payload with
  | JUndefined | JNull => JObj []
  | _ => payload
  end.

(** The request body [{ url, payload }] a client sends to relay. *)
Definition send_body (url payload : JsValue) : JsValue :=
  JObj [("url", url); ("payload", payload)]%string.

(** The options the handler passes to [fetch]. *)
Definition relay_init (payload : JsValue) : FetchInit :=
  {| method := "POST"; content_type := "application/json";
     json_body := nullish_or_empty payload |}.

Definition upstream_error (message : string) : Outcome :=
  Json 502 (JObj [("ok", JBool false); ("error", JStr message)]%string).

Section Handler.

(** [JSON.parse]; [None] when it throws [SyntaxError]. *)
Variable JSON_parse : string -> option JsValue.

Definition decode (text : string) : JsValue :=
  match JSON_parse text with
  | Some v => v
  | None => JStr text
  end.

(** [POST /api/webhook/send] *)
Definition post_webhook_send (req_body : JsValue) : Async :=
  match destructure req_body "url", destructure req_body "payload" with
  | Some url, Some payload =>
      if negb (truthy url) then
        Answer (Json 400 (ok_false "Missing target URL"))
      else
        AwaitFetch url (relay_init payload)
          (fun fetched =>
             match fetched with
             | Rejected message => Answer (upstream_error message)
             | Fulfilled response =>
                 AwaitText response
                   (fun read =>
                      match read with
                      | Rejected message => Answer (upstream_error message)
                      | Fulfilled text =>
                          Answer (Json 200
                            (JObj [("ok", JBool true);
                                   ("status", JNum (status response));
                                   ("statusText", JStr (statusText response));
                                   ("body", decode text)]%string))
                      end)
             end)
  | _, _ =>
      Answer (Throws "TypeError: Cannot destructure property of req.body")
  end.

End Handler.

(** The network as the handler sees it: how [fetch] settles for a request,
    and how reading the text of a response settles. *)
Record Network : Type := {
  fetch : JsValue -> FetchInit -> Settled Response;
  text : Response -> Settled string
}.

(** Runs an asynchronous handler against a network; returns its outcome
    and the requests it sent out, in order. *)
Fixpoint settle (net : Network) (a : Async)
  : Outcome * list (JsValue * FetchInit) :=
  match a with
  | Answer o => (o, [])
  | AwaitFetch url init resume =>
      let '(o, sent) := settle net (resume (fetch net url init)) in
      (o, (url, init) :: sent)
  | AwaitText response resume => settle net (resume (text net response))
  end.

End Relay.

(** ** The configs object with its key order *)

(** [Object.keys(configs)] lists the own properties of the object in the
    order the language fixes: first the keys that are array indices, in
    ascending numeric order, then the other keys in the order in which the
    properties were created.  The map of [ConfigStore] forgets that order;
    here the object is the list of its own properties in that order. *)
Module OrderedObject.

Abbreviation Members := (list (string * JsValue)).

(** Value of a decimal digit. *)
Definition digit (c : ascii) : option Z :=
  let n := Z.of_nat (Ascii.nat_of_ascii c) in
  if (48 <=? n) && (n <=? 57) then Some (n - 48) else None.

Fixpoint digits_value (s : string) (acc : Z) : option Z :=
  match s with
  | EmptyString => Some acc
  | String c s' =>
      match digit c with
      | Some d => digits_value s' (10 * acc + d)
      | None => None
      end
  end.

(** A key is an array index when it is the canonical decimal numeral (no
    sign, no leading zero) of an integer below 2^32 - 1. *)
Definition array_index (k : string) : option Z :=
  match k with
  | EmptyString => None
  | String c rest =>
      match digits_value k 0 with
      | Some n =>
          if (negb (Ascii.eqb c "0") || String.eqb rest "")
             && (n <? 4294967295)
          then Some n else None
      | None => None
      end
  end.

(** The own property [k], if there is one. *)
Fixpoint own_lookup (o : Members) (k : string) : option JsValue :=
  match o with
  | [] => None
  | (k', v) :: o' => if String.eqb k' k then Some v else own_lookup o' k
  end.

(** Assigning to an existing own property keeps its place. *)
Fixpoint replace_value (o : Members) (k : string) (v : JsValue) : Members :=
  match o with
  | [] => []
  | (k', w) :: o' =>
      if String.eqb k' k then (k', v) :: o'
      else (k', w) :: replace_value o' k v
  end.

(** A new index key goes after the smaller indices and before everything
    else. *)
Fixpoint insert_index (o : Members) (n : Z) (k : string) (v : JsValue)
  : Members :=
  match o with
  | [] => [(k, v)]
  | (k', w) :: o' =>
      match array_index k' with
      | Some m => if m <? n then (k', w) :: insert_index o' n k v
                  else (k, v) :: o
      | None => (k, v) :: o
      end
  end.

(** Creating an own property that does not exist yet. *)
Definition define_own (o : Members) (k : string) (v : JsValue) : Members :=
  match array_index k with
  | Some n => insert_index o n k v
  | None => o ++ [(k, v)]
  end.

(** CreateDataProperty, as [JSON.parse] uses it for each member: no setter
    runs, so [__proto__] becomes an own property like any other key. *)
Definition create_data_property (o : Members) (k : string) (v : JsValue)
  : Members :=
  match own_lookup o k with
  | Some _ => replace_value o k v
  | None => define_own o k v
  end.

(** [JSON.parse] of an object's text, from its members in text order. *)
Definition JSON_parse_object (members : Members) : Members :=
  foldl (fun o kv => create_data_property o kv.1 kv.2) [] members.

(** [o[k]], [o[k] = v] and [delete o[k]] on an object whose prototype is
    [Object.prototype]; see [Js.obj_get], [Js.obj_set], [Js.obj_delete]. *)
Definition ord_get (o : Members) (k : string) : JsValue :=
  match own_lookup o k with
  | Some v => v
  | None => object_prototype_get k
  end.

Definition ord_set (o : Members) (k : string) (v : JsValue) : Members :=
  match own_lookup o k with
  | Some _ => replace_value o k v
  | None => if String.eqb k "__proto__" then o else define_own o k v
  end.

Definition ord_delete (o : Members) (k : string) : Members :=
  List.filter (fun kv => negb (String.eqb kv.1 k)) o.

(** [Object.keys(o)] *)
Definition Object_keys (o : Members) : list string := map fst o.

(** The object as a map from its keys. *)
Definition to_map (o : Members) : gmap string JsValue := list_to_map o.

(** No key is an array index. *)
Definition no_index (o : Members) : Prop :=
  Forall (fun kv => array_index kv.1 = None) o.

(** Index keys above [lo] in ascending order, then keys that are not
    indices. *)
Fixpoint ordered_from (lo : Z) (o : Members) : Prop :=
  match o with
  | [] => True
  | (k, _) :: o' =>
      match array_index k with
      | Some n => lo < n /\ ordered_from n o'
      | None => no_index o'
      end
  end.

(** The shape of the own properties of an object: distinct keys in the
    order of [Object.keys]. *)
Definition canonical (o : Members) : Prop :=
  NoDup (Object_keys o) /\ ordered_from (-1) o.

(** The keys that are not array indices, in their order. *)
Definition plain_keys (o : Members) : list string :=
  List.filter (fun k => match array_index k with None => true | _ => false end)
              (Object_keys o).

End OrderedObject.

(** ** The config handlers on the document with its key order *)

Module FileStore.
Import OrderedObject.

(** [readConfigs()]: the object parsed from the members of the document. *)
Definition readConfigs (file : Members) : Members := JSON_parse_object file.

(** [writeConfigs(configs)]: [JSON.stringify] writes the own properties in
    the order of [Object.keys]; their values are carried as it keeps
    them (see the conventions at the head of the file). *)
Definition writeConfigs (configs : Members) : Members := configs.

(** [GET /api/configs] *)
Definition get_configs (file : Members) : Outcome :=
  let configs := readConfigs file in
  Json 200 (JObj [("ok", JBool true);
                  ("names", JArr (map JStr (Object_keys configs)))]%string).

(** [GET /api/configs/:name] *)
Definition get_config (name : string) (file : Members) : Outcome :=
  let configs := readConfigs file in
  if negb (truthy (ord_get configs name)) then
    Json 404 (ok_false "Config not found")
  else
    Json 200 (JObj [("ok", JBool true); ("name", JStr name);
                    ("rules", ord_get configs name)]%string).

(** [POST /api/configs] *)
Definition post_configs (body : JsValue) (file : Members)
  : Outcome * Members :=
  match destructure body "name", destructure body "rules" with
  | Some name, Some rules =>
      if negb (truthy name) then
        (Json 400 (ok_false "Name is required"), file)
      else
        match call_trim name with
        | None => (Throws "TypeError: name.trim is not a function", file)
        | Some trimmed =>
            if negb (truthy (JStr trimmed)) then
              (Json 400 (ok_false "Name is required"), file)
            else if negb (truthy rules) || negb (isArray rules) then
              (Json 400 (ok_false "Rules array is required"), file)
            else
              let configs := readConfigs file in
              let configs := ord_set configs trimmed rules in
              (Json 200 (JObj [("ok", JBool true);
                               ("name", JStr trimmed)]%string),
               writeConfigs configs)
        end
  | _, _ =>
      (Throws "TypeError: Cannot destructure property of req.body", file)
  end.

(** [DELETE /api/configs/:name] *)
Definition delete_config (name : string) (file : Members)
  : Outcome * Members :=
  let configs := readConfigs file in
  if negb (truthy (ord_get configs name)) then
    (Json 404 (ok_false "Config not found"), file)
  else
    let configs := ord_delete configs name in
    (Json 200 (JObj [("ok", JBool true)]%string), writeConfigs configs).

(** The four config requests. *)
Inductive Request : Type :=
| ListNames
| Load (name : string)
| Save (req_body : JsValue)
| Remove (name : string).

Definition serve (r : Request) (file : Members) : Outcome * Members :=
  match r with
  | ListNames => (get_configs file, file)
  | Load name => (get_config name file, file)
  | Save req_body => post_configs req_body file
  | Remove name => delete_config name file
  end.

(** The document after a sequence of requests. *)
Definition file_after (rs : list Request) (file : Members) : Members :=
  foldl (fun f r => (serve r f).2) file rs.

(** The names [GET /api/configs] answers with. *)
Definition listed (file : Members) : list string :=
  Object_keys (readConfigs file).

(** The document of [ConfigStore] that a document with key order stands
    for. *)
Definition as_map (file : Members) : gmap string JsValue :=
  to_map (readConfigs file).

(** The trimmed name under which a save request is accepted, if it is:
    the name is a string with a non-blank trim and the rules are an
    array. *)
Definition accepted (req_body : JsValue) : option string :=
  match destructure req_body "name", destructure req_body "rules" with
  | Some (JStr name), Some (JArr _) =>
      if String.eqb (trim name) "" then None else Some (trim name)
  | _, _ => None
  end.

(** The names a history of requests leaves saved: an accepted save adds
    its trimmed name, except [__proto__]; a delete takes its name away. *)
Definition remember (names : gset string) (r : Request) : gset string :=
  match r with
  | Save req_body =>
      match accepted req_body with
      | Some t => if String.eqb t "__proto__" then names else names ∪ {[t]}
      | None => names
      end
  | Remove name => names ∖ {[name]}
  | _ => names
  end.

Definition saved_names (rs : list Request) : gset string :=
  foldl remember ∅ rs.


End FileStore.

(** ** Histories of the server *)

Module ServerHistory.
Import Server.

(** The receive calls of a run, in order: request headers, body and clock
    reading. *)
Definition receive_calls (tr : list Callback)
  : list (gmap string JsValue * JsValue * Z) :=
  omap (fun c => match c with
                 | POST_webhook_receive h b now => Some (h, b, now)
                 | _ => None
                 end) tr.

(** The event the log holds for the receive call number [n], counted from
    0. *)
Definition logged (n : nat) (call : gmap string JsValue * JsValue * Z)
  : Event :=
  {| id := Z.of_nat n + 1;
     receivedAt := call.2;
     headers :=
       JObj [("content-type",
              default JUndefined (call.1.1 !! "content-type"%string));
             ("user-agent",
              default JUndefined (call.1.1 !! "user-agent"%string))]%string;
     body := call.1.2 |}.

(** The callback is one of the config routes. *)
Definition is_config_request (c : Callback) : bool :=
  match c with
  | GET_config _ | POST_configs _ | DELETE_config _ => true
  | _ => false
  end.

End ServerHistory.

(** * Properties *)

(** ** Config store *)

Module ConfigStoreFacts.
Import ConfigStore.

Local Open Scope string_scope.

Lemma truthy_JStr (s : string) : truthy (JStr s) = true <-> s <> "".
Proof.
  simpl. destruct (String.eqb s "") eqn:E.
  - apply String.eqb_eq in E. split; [discriminate | congruence].
  - apply String.eqb_neq in E. split; [auto | reflexivity].
Qed.

Lemma destructure_name (name rules : JsValue) :
  destructure (save_body name rules) "name" = Some name.
Proof. reflexivity. Qed.

Lemma destructure_rules (name rules : JsValue) :
  destructure (save_body name rules) "rules" = Some rules.
Proof. reflexivity. Qed.


Lemma obj_set_other (own : gmap string JsValue) (k k' : string) (v : JsValue) :
  k' <> k -> obj_set own k v !! k' = own !! k'.
Proof.
  intros H. unfold obj_set.
  destruct (own !! k); [by rewrite lookup_insert_ne |].
  destruct (String.eqb k "__proto__"); [done | by rewrite lookup_insert_ne].
Qed.

(** What a save does when the name is a string with a non-blank trim and
    the rules are an array. *)
Lemma post_configs_accepts (file : gmap string JsValue) (name : string)
    (rules : list JsValue) :
  trim name <> "" ->
  post_configs (save_body (JStr name) (JArr rules)) file =
    (Json 200 (JObj [("ok", JBool true); ("name", JStr (trim name))]),
     obj_set file (trim name) (JArr rules)).
Proof.
  intros Ht. unfold post_configs.
  rewrite destructure_name, destructure_rules.
  assert (Hn : name <> "") by (intros ->; apply Ht; reflexivity).
  apply truthy_JStr in Hn. apply truthy_JStr in Ht.
  rewrite Hn. cbn [negb call_trim]. rewrite Ht. reflexivity.
Qed.


Example save_trims_name :
  let file := (post_configs (save_body (JStr "  foo  ") (JArr [])) ∅).2 in
  get_config "foo" file =
    Json 200 (JObj [("ok", JBool true); ("name", JStr "foo");
                    ("rules", JArr [])]).
Proof. reflexivity. Qed.

Example save_replaces :
  let file1 :=
    (post_configs (save_body (JStr "x") (JArr [JNum 1; JNum 2])) ∅).2 in
  let file2 := (post_configs (save_body (JStr "x") (JArr [JNum 3])) file1).2 in
  get_config "x" file2 =
    Json 200 (JObj [("ok", JBool true); ("name", JStr "x");
                    ("rules", JArr [JNum 3])]).
Proof. reflexivity. Qed.

(** C3, at the name [__proto__]: the save answers [{ok: true}] with the
    name, yet the assignment [configs["__proto__"] = rules] creates no own
    property, so the document is unchanged and the following get answers
    200 with [Object.prototype] in place of the rules that were saved. *)
Theorem save_proto_then_get_loses_rules :
  let saved := post_configs (save_body (JStr "__proto__") (JArr [JNum 1])) ∅ in
  saved.1 = Json 200 (JObj [("ok", JBool true); ("name", JStr "__proto__")]) /\
  saved.2 = ∅ /\
  get_config (trim "__proto__") saved.2 =
    Json 200 (JObj [("ok", JBool true); ("name", JStr "__proto__");
                    ("rules", JObjectPrototype)]) /\
  get_config (trim "__proto__") saved.2 <>
    Json 200 (JObj [("ok", JBool true); ("name", JStr "__proto__");
                    ("rules", JArr [JNum 1])]).
Proof. repeat split; try reflexivity. cbv. discriminate. Qed.

(** A falsy name, or a string whose trim is empty, is refused with 400 and
    the document is not written, whatever the rules are. *)
Lemma post_configs_rejects_name (file : gmap string JsValue)
    (name rules : JsValue) :
  truthy name = false \/ (exists s, name = JStr s /\ trim s = "") ->
  post_configs (save_body name rules) file =
    (Json 400 (ok_false "Name is required"), file).
Proof.
  intros H. unfold post_configs.
  rewrite destructure_name, destructure_rules.
  destruct (truthy name) eqn:Hn; [| reflexivity].
  destruct H as [H | (s & -> & Hs)]; [discriminate |].
  cbn [negb call_trim]. rewrite Hs. reflexivity.
Qed.

(** With an acceptable name, rules that are missing or not an array are
    refused with 400 and the document is not written. *)
Lemma post_configs_rejects_rules (file : gmap string JsValue) (name : string)
    (rules : JsValue) :
  trim name <> "" ->
  isArray rules = false ->
  post_configs (save_body (JStr name) rules) file =
    (Json 400 (ok_false "Rules array is required"), file).
Proof.
  intros Ht Hr. unfold post_configs.
  rewrite destructure_name, destructure_rules.
  assert (Hn : name <> "") by (intros ->; apply Ht; reflexivity).
  apply truthy_JStr in Hn. apply truthy_JStr in Ht.
  rewrite Hn. cbn [negb call_trim]. rewrite Ht, Hr. cbn [negb].
  rewrite orb_true_r. reflexivity.
Qed.

(** An empty rules list is accepted. *)
Lemma post_configs_accepts_empty (file : gmap string JsValue) (name : string) :
  trim name <> "" ->
  post_configs (save_body (JStr name) (JArr [])) file =
    (Json 200 (JObj [("ok", JBool true); ("name", JStr (trim name))]),
     obj_set file (trim name) (JArr [])).
Proof. apply post_configs_accepts. Qed.

(** A truthy name that is not a string makes [name.trim()] throw before
    the rules are looked at. *)
Lemma post_configs_throws (file : gmap string JsValue) (name rules : JsValue) :
  truthy name = true ->
  (forall s, name <> JStr s) ->
  post_configs (save_body name rules) file =
    (Throws "TypeError: name.trim is not a function", file).
Proof.
  intros Hn Hs. unfold post_configs.
  rewrite destructure_name, destructure_rules, Hn. cbn [negb].
  destruct name; try reflexivity. by destruct (Hs s).
Qed.

(** C4, at the body [{name: 5, rules: "x"}]: the rules are not a list, yet
    the handler does not answer 400; evaluating [name.trim()] on the number
    throws, and the exception leaves the handler.  The document is
    unchanged. *)
Theorem save_number_name_throws :
  isArray (JStr "x") = false /\
  post_configs (save_body (JNum 5) (JStr "x")) ∅ =
    (Throws "TypeError: name.trim is not a function", ∅) /\
  forall error_body,
    (post_configs (save_body (JNum 5) (JStr "x")) ∅).1 <> Json 400 error_body.
Proof. repeat split. intros b. cbv. discriminate. Qed.

(** A name that is neither stored nor inherited is not found, by get and
    by delete, and delete leaves the document as it was. *)
Lemma absent_not_found (file : gmap string JsValue) (name : string) :
  file !! name = None ->
  inherited name = false ->
  get_config name file = Json 404 (ok_false "Config not found") /\
  delete_config name file = (Json 404 (ok_false "Config not found"), file).
Proof.
  unfold inherited, get_config, delete_config, readConfigs, obj_get.
  intros -> ->. split; reflexivity.
Qed.

(** A stored name is found: get answers its rules and delete removes the
    entry. *)
Lemma present_found (file : gmap string JsValue) (name : string)
    (rules : list JsValue) :
  file !! name = Some (JArr rules) ->
  get_config name file =
    Json 200 (JObj [("ok", JBool true); ("name", JStr name);
                    ("rules", JArr rules)]) /\
  delete_config name file = (Json 200 (JObj [("ok", JBool true)]),
                             delete name file) /\
  (delete_config name file).2 !! name = None.
Proof.
  unfold get_config, delete_config, readConfigs, writeConfigs, obj_get,
    obj_delete.
  intros ->. cbn. rewrite lookup_delete_eq. done.
Qed.

Lemma all_arrays_empty : all_arrays ∅.
Proof. intros k v H. by rewrite lookup_empty in H. Qed.

Lemma all_arrays_post_configs (file : gmap string JsValue) (req_body : JsValue) :
  all_arrays file -> all_arrays (post_configs req_body file).2.
Proof.
  intros Hf. unfold post_configs.
  destruct (destructure req_body "name") as [name |]; [| exact Hf].
  destruct (destructure req_body "rules") as [rules |]; [| exact Hf].
  destruct (truthy name); [| exact Hf]. cbn [negb].
  destruct (call_trim name) as [t |]; [| exact Hf].
  destruct (truthy (JStr t)); [| exact Hf]. cbn [negb].
  destruct (truthy rules); [| exact Hf].
  destruct (isArray rules) eqn:Hr; [| exact Hf].
  cbn. unfold writeConfigs, readConfigs. intros k v.
  destruct (decide (k = t)) as [-> | Hk].
  - unfold obj_set. destruct (file !! t) eqn:Ht.
    + rewrite lookup_insert_eq. by intros [= <-].
    + destruct (String.eqb t "__proto__").
      * rewrite Ht. discriminate.
      * rewrite lookup_insert_eq. by intros [= <-].
  - rewrite obj_set_other by done. apply Hf.
Qed.

Lemma all_arrays_delete_config (file : gmap string JsValue) (name : string) :
  all_arrays file -> all_arrays (delete_config name file).2.
Proof.
  intros Hf. unfold delete_config.
  destruct (truthy _); [| exact Hf]. cbn.
  unfold writeConfigs, obj_delete, readConfigs. intros k v Hk.
  apply lookup_delete_Some in Hk as [_ Hk]. by apply (Hf k).
Qed.

(** In a document of arrays, being stored is being stored with a list. *)
Lemma stored_is_list (file : gmap string JsValue) (name : string) (v : JsValue) :
  all_arrays file -> file !! name = Some v -> exists rules, v = JArr rules.
Proof.
  intros Hf Hv. apply Hf in Hv. destruct v; try discriminate. eauto.
Qed.

(** C5, at the name [constructor] and the empty document: the name is
    absent, yet [configs["constructor"]] is the inherited function, which
    is truthy; get answers 200 and delete answers 200 where the specification
    has 404. *)
Theorem inherited_name_is_found :
  (∅ : gmap string JsValue) !! "constructor" = None /\
  get_config "constructor" ∅ =
    Json 200 (JObj [("ok", JBool true); ("name", JStr "constructor");
                    ("rules", JBuiltin "constructor")]) /\
  delete_config "constructor" ∅ = (Json 200 (JObj [("ok", JBool true)]), ∅).
Proof. repeat split. Qed.

End ConfigStoreFacts.

(** ** Event log and subscribers *)

Module ServerFacts.
Import Server.

(** *** Writing to response streams *)

Lemma write_same (res : Res) (chunk : Chunk) (w : gmap Res (list Chunk)) :
  write res chunk w !!! res = w !!! res ++ [chunk].
Proof. unfold write. by rewrite lookup_total_insert_eq. Qed.

Lemma write_other (res r : Res) (chunk : Chunk) (w : gmap Res (list Chunk)) :
  res <> r -> write res chunk w !!! r = w !!! r.
Proof. intros H. unfold write. by rewrite lookup_total_insert_ne. Qed.

Lemma fan_out_absent (event : Event) (clients : list Res)
    (w : gmap Res (list Chunk)) (r : Res) :
  r ∉ clients -> fan_out event clients w !!! r = w !!! r.
Proof.
  unfold fan_out. revert w.
  induction clients as [| c clients IH]; intros w Hr; [reflexivity |].
  apply not_elem_of_cons in Hr as [Hne Hr]. cbn [foldl].
  rewrite IH by done. apply write_other. congruence.
Qed.

Lemma fan_out_present (event : Event) (clients : list Res)
    (w : gmap Res (list Chunk)) (r : Res) :
  NoDup clients -> r ∈ clients ->
  fan_out event clients w !!! r = w !!! r ++ [SseData event].
Proof.
  unfold fan_out. revert w.
  induction clients as [| c clients IH]; intros w Hnd Hr.
  - by apply elem_of_nil in Hr.
  - apply NoDup_cons in Hnd as [Hc Hnd]. cbn [foldl].
    apply elem_of_cons in Hr as [-> | Hr].
    + fold (fan_out event clients (write c (SseData event) w)).
      rewrite fan_out_absent by done. apply write_same.
    + rewrite IH by done. rewrite write_other; [done |].
      intros ->. contradiction.
Qed.

Lemma replay_same (res : Res) (log : list Event) (w : gmap Res (list Chunk)) :
  replay res log w !!! res = w !!! res ++ map SseData log.
Proof.
  unfold replay. revert w.
  induction log as [| e log IH]; intros w; cbn [foldl map].
  - by rewrite app_nil_r.
  - rewrite IH, write_same, <- app_assoc. reflexivity.
Qed.

Lemma replay_other (res r : Res) (log : list Event)
    (w : gmap Res (list Chunk)) :
  res <> r -> replay res log w !!! r = w !!! r.
Proof.
  intros Hne. unfold replay. revert w.
  induction log as [| e log IH]; intros w; cbn [foldl]; [reflexivity |].
  rewrite IH. by apply write_other.
Qed.

(** *** The close listener *)

Lemma indexOf_absent (l : list Res) (res : Res) :
  res ∉ l -> indexOf l res = -1.
Proof.
  induction l as [| r l IH]; intros H; [reflexivity |].
  apply not_elem_of_cons in H as [Hne H]. cbn [indexOf].
  destruct (Nat.eqb_spec r res) as [-> | _]; [done |].
  rewrite IH by done. reflexivity.
Qed.

Lemma indexOf_range (l : list Res) (res : Res) :
  indexOf l res = -1 \/ 0 <= indexOf l res.
Proof.
  induction l as [| r l IH]; [by left |]. cbn [indexOf].
  destruct (Nat.eqb r res); [right; lia |].
  destruct (Z.eqb_spec (indexOf l res) (-1)); [by left | right; lia].
Qed.

Lemma indexOf_present (l : list Res) (res : Res) :
  res ∈ l -> 0 <= indexOf l res.
Proof.
  induction l as [| r l IH]; intros H; [by apply elem_of_nil in H |].
  cbn [indexOf]. destruct (Nat.eqb_spec r res) as [-> | Hne]; [lia |].
  apply elem_of_cons in H as [-> | H]; [done |].
  specialize (IH H).
  destruct (Z.eqb_spec (indexOf l res) (-1)); lia.
Qed.

Lemma splice1_indexOf (l : list Res) (res : Res) :
  0 <= indexOf l res -> splice1 l (indexOf l res) = remove_first res l.
Proof.
  unfold splice1. induction l as [| r l IH]; cbn [indexOf remove_first].
  - lia.
  - destruct (Nat.eqb r res); [reflexivity |].
    destruct (Z.eqb_spec (indexOf l res) (-1)) as [| Hne]; [lia |].
    intros _. destruct (indexOf_range l res) as [| Hge]; [lia |].
    rewrite <- (IH Hge).
    replace (Z.to_nat (indexOf l res + 1)) with (S (Z.to_nat (indexOf l res)))
      by lia.
    reflexivity.
Qed.

Lemma remove_first_absent (l : list Res) (res : Res) :
  res ∉ l -> remove_first res l = l.
Proof.
  induction l as [| r l IH]; intros H; [reflexivity |].
  apply not_elem_of_cons in H as [Hne H]. cbn [remove_first].
  destruct (Nat.eqb_spec r res) as [-> | _]; [done |]. by rewrite IH.
Qed.

Lemma remove_first_sublist (l : list Res) (res : Res) :
  remove_first res l `sublist_of` l.
Proof.
  induction l as [| r l IH]; cbn [remove_first]; [done |].
  destruct (Nat.eqb r res).
  - by apply sublist_cons.
  - by apply sublist_skip.
Qed.

Lemma remove_first_gone (l : list Res) (res : Res) :
  NoDup l -> res ∉ remove_first res l.
Proof.
  induction l as [| r l IH]; intros Hnd; cbn [remove_first].
  - apply not_elem_of_nil.
  - apply NoDup_cons in Hnd as [Hr Hnd].
    destruct (Nat.eqb_spec r res) as [-> | Hne]; [done |].
    apply not_elem_of_cons. split; [congruence | by apply IH].
Qed.

Lemma remove_first_keeps (l : list Res) (res r : Res) :
  r <> res -> r ∈ l -> r ∈ remove_first res l.
Proof.
  intros Hne. induction l as [| x l IH]; intros H; cbn [remove_first].
  - by apply elem_of_nil in H.
  - apply elem_of_cons in H as [-> | H].
    + destruct (Nat.eqb_spec x res) as [-> | _]; [done |]. apply list_elem_of_here.
    + destruct (Nat.eqb x res); [done |]. apply list_elem_of_further. by apply IH.
Qed.

(** The listener leaves everything but [sseClients] alone, and from
    [sseClients] it removes the first occurrence of its response. *)
Lemma on_close_clients (res : Res) (s : State) :
  sseClients (on_close res s) = remove_first res (sseClients s).
Proof.
  unfold on_close.
  destruct (Z.eqb_spec (indexOf (sseClients s) res) (-1)) as [E | E];
    cbn [negb sseClients].
  - destruct (decide (res ∈ sseClients s)) as [Hin | Hout].
    + apply indexOf_present in Hin. lia.
    + by rewrite remove_first_absent.
  - apply splice1_indexOf.
    destruct (indexOf_range (sseClients s) res); [done | lia].
Qed.

Lemma on_close_rest (res : Res) (s : State) :
  configs_file (on_close res s) = configs_file s /\
  webhooks (on_close res s) = webhooks s /\
  wire (on_close res s) = wire s /\
  next_res (on_close res s) = next_res s.
Proof. unfold on_close. by destruct (negb _). Qed.

Lemma on_close_unknown (res : Res) (s : State) :
  res ∉ sseClients s -> on_close res s = s.
Proof.
  intros H. unfold on_close. by rewrite indexOf_absent.
Qed.

(** *** Runs *)

Lemma run_cons (c : Callback) (tr : list Callback) (s : State) :
  run (c :: tr) s =
    ((handle c s).1 :: replies tr (handle c s).2,
     state_after tr (handle c s).2).
Proof.
  unfold replies, state_after. cbn [run].
  destruct (handle c s) as [r s1]. cbn [fst snd]. by destruct (run tr s1).
Qed.

Lemma state_after_cons (c : Callback) (tr : list Callback) (s : State) :
  state_after (c :: tr) s = state_after tr (handle c s).2.
Proof. unfold state_after at 1. by rewrite run_cons. Qed.

Lemma replies_cons (c : Callback) (tr : list Callback) (s : State) :
  replies (c :: tr) s = (handle c s).1 :: replies tr (handle c s).2.
Proof. unfold replies at 1. by rewrite run_cons. Qed.

Lemma state_after_app (tr1 tr2 : list Callback) (s : State) :
  state_after (tr1 ++ tr2) s = state_after tr2 (state_after tr1 s).
Proof.
  revert s. induction tr1 as [| c tr1 IH]; intros s; [reflexivity |].
  cbn [app]. rewrite !state_after_cons. apply IH.
Qed.

(** The state after a receive call, field by field. *)
Lemma handle_receive (h : gmap string JsValue) (b : JsValue) (now : Z)
    (s : State) :
  handle (POST_webhook_receive h b now) s =
    (Replied (Json 200 (JObj [("ok", JBool true);
                              ("id", JNum (Z.of_nat (length (webhooks s)) + 1))]%string)),
     {| configs_file := configs_file s;
        webhooks := webhooks s ++ [make_event (webhooks s) h b now];
        sseClients := sseClients s;
        wire := fan_out (make_event (webhooks s) h b now) (sseClients s) (wire s);
        next_res := next_res s |}).
Proof. reflexivity. Qed.

(** Only a receive call changes the log, and it appends one event. *)
Lemma handle_webhooks (c : Callback) (s : State) :
  webhooks (handle c s).2 =
    webhooks s ++
    match c with
    | POST_webhook_receive h b now => [make_event (webhooks s) h b now]
    | _ => []
    end.
Proof.
  destruct c; cbn [handle].
  - by rewrite app_nil_r.
  - destruct (ConfigStore.post_configs _ _). by rewrite app_nil_r.
  - destruct (ConfigStore.delete_config _ _). by rewrite app_nil_r.
  - reflexivity.
  - by rewrite app_nil_r.
  - cbn [snd]. rewrite app_nil_r. apply on_close_rest.
Qed.

Lemma webhooks_state_after (tr : list Callback) (s : State) :
  webhooks (state_after tr s) = webhooks s ++ published tr s.
Proof.
  revert s. induction tr as [| c tr IH]; intros s.
  - cbn. by rewrite app_nil_r.
  - rewrite state_after_cons, IH, handle_webhooks. cbn [published].
    destruct c; rewrite <- ?app_assoc; try rewrite app_nil_l; reflexivity.
Qed.

Lemma length_published (tr : list Callback) (s : State) :
  length (published tr s) = receive_count tr.
Proof.
  revert s. induction tr as [| c tr IH]; intros s; [reflexivity |].
  cbn [published receive_count]. destruct c; cbn [is_receive length]; by rewrite IH.
Qed.

(** *** Ids *)

Lemma ids_are_positions_snoc (log : list Event) (e : Event) :
  ids_are_positions log ->
  id e = Z.of_nat (length log) + 1 ->
  ids_are_positions (log ++ [e]).
Proof.
  unfold ids_are_positions. intros Hlog He.
  rewrite map_app, length_app, Hlog. cbn [map length].
  rewrite seq_app, map_app. cbn [seq map]. rewrite He.
  do 2 f_equal. lia.
Qed.

Lemma max_id_from (log : list Event) (a : nat) :
  map id log = map Z.of_nat (seq a (length log)) ->
  max_id log =
    match log with [] => 0 | _ => Z.of_nat (a + length log) - 1 end.
Proof.
  revert a. induction log as [| e log IH]; intros a H; [reflexivity |].
  cbn [map length seq] in H. injection H as He Hlog.
  unfold max_id in *. cbn [foldr]. rewrite (IH (S a) Hlog), He.
  destruct log; cbn [length]; lia.
Qed.

Lemma max_id_positions (log : list Event) :
  ids_are_positions log -> max_id log = Z.of_nat (length log).
Proof.
  intros H. rewrite (max_id_from log 1 H). destruct log; cbn [length]; lia.
Qed.

Lemma id_in_positions (log : list Event) (e : Event) :
  ids_are_positions log -> e ∈ log -> 1 <= id e <= Z.of_nat (length log).
Proof.
  unfold ids_are_positions. intros H He.
  assert (Hin : id e ∈ map id log) by (by apply list_elem_of_fmap_2).
  rewrite H in Hin. apply list_elem_of_fmap in Hin as (n & -> & Hn).
  apply list_elem_of_In, in_seq in Hn. lia.
Qed.

(** *** The shape of reachable states *)

Lemma Shape_init : Shape init.
Proof.
  split; cbn.
  - reflexivity.
  - apply NoDup_nil_2.
  - intros r H. by apply elem_of_nil in H.
  - intros r _. by rewrite lookup_total_empty.
  - apply ConfigStoreFacts.all_arrays_empty.
Qed.

Lemma Shape_handle (c : Callback) (s : State) :
  Shape s -> Shape (handle c s).2.
Proof.
  intros [Hids Hnd Hiss Hfresh Hfile]. destruct c; cbn [handle].
  - by split.
  - pose proof (ConfigStoreFacts.all_arrays_post_configs _ req_body Hfile).
    destruct (ConfigStore.post_configs _ _). by split.
  - pose proof (ConfigStoreFacts.all_arrays_delete_config _ name Hfile).
    destruct (ConfigStore.delete_config _ _). by split.
  - split; cbn; try done.
    + by apply ids_are_positions_snoc.
    + intros r Hr. rewrite fan_out_absent; [by apply Hfresh |].
      intros Hin. apply Hiss in Hin. lia.
  - split; cbn; try done.
    + apply NoDup_app. split_and!; [done | | apply NoDup_singleton].
      intros r Hr ->%list_elem_of_singleton. apply Hiss in Hr. lia.
    + intros r [Hr | ->%list_elem_of_singleton]%elem_of_app; [| lia].
      apply Hiss in Hr. lia.
    + intros r Hr. rewrite replay_other by lia. apply Hfresh. lia.
  - cbn [snd]. destruct (on_close_rest res s) as (Ef & Ew & Ewire & En).
    split; rewrite ?Ef, ?Ew, ?Ewire, ?En, ?on_close_clients; try done.
    + eapply sublist_NoDup; [| apply remove_first_sublist]. done.
    + intros r Hr. apply Hiss.
      eapply elem_of_sublist; [exact Hr | apply remove_first_sublist].
Qed.

Lemma Shape_state_after (tr : list Callback) (s : State) :
  Shape s -> Shape (state_after tr s).
Proof.
  revert s. induction tr as [| c tr IH]; intros s Hs; [done |].
  rewrite state_after_cons. by apply IH, Shape_handle.
Qed.

Lemma Shape_reachable (tr : list Callback) : Shape (state_after tr init).
Proof. apply Shape_state_after, Shape_init. Qed.

(** *** Ids acknowledged by receive calls *)

Lemma acked_ids_cons (c : Callback) (tr : list Callback) (s : State) :
  acked_ids (c :: tr) s =
    match ack_id c (handle c s).1 with
    | Some v => v :: acked_ids tr (handle c s).2
    | None => acked_ids tr (handle c s).2
    end.
Proof. unfold acked_ids. rewrite replies_cons. reflexivity. Qed.

Lemma acked_ids_from (tr : list Callback) (s : State) :
  acked_ids tr s =
    map (fun n => JNum (Z.of_nat n))
        (seq (S (length (webhooks s))) (receive_count tr)).
Proof.
  revert s. induction tr as [| c tr IH]; intros s; [reflexivity |].
  rewrite acked_ids_cons, IH, handle_webhooks.
  destruct c; cbn [handle].
  - by rewrite app_nil_r.
  - destruct (ConfigStore.post_configs _ _). by rewrite app_nil_r.
  - destruct (ConfigStore.delete_config _ _). by rewrite app_nil_r.
  - cbn [post_webhook_receive fst ack_id receive_count is_receive].
    change (destructure _ "id") with
      (Some (JNum (id (make_event (webhooks s) req_headers req_body now)))).
    cbn [make_event id seq map]. rewrite length_app. cbn [length].
    do 2 f_equal; [lia | f_equal; lia].
  - by rewrite app_nil_r.
  - by rewrite app_nil_r.
Qed.

(** C1: the ids acknowledged by the receive calls of any run from the
    initial state are 1, 2, ..., N in arrival order, N being the number of
    receive calls; the log then holds exactly these ids; and the event a
    further receive call appends carries the largest id of the log plus
    one, which is 1 for the empty log. *)
Theorem receive_ids_sequential (tr : list Callback) :
  acked_ids tr init =
    map (fun n => JNum (Z.of_nat n)) (seq 1 (receive_count tr)) /\
  map id (webhooks (state_after tr init)) =
    map Z.of_nat (seq 1 (receive_count tr)) /\
  max_id [] = 0 /\
  forall h b now,
    let s := state_after tr init in
    let e := make_event (webhooks s) h b now in
    (handle (POST_webhook_receive h b now) s).1 =
      Replied (Json 200 (JObj [("ok", JBool true); ("id", JNum (id e))]%string)) /\
    webhooks (handle (POST_webhook_receive h b now) s).2 = webhooks s ++ [e] /\
    id e = max_id (webhooks s) + 1.
Proof.
  pose proof (Shape_reachable tr) as [Hids _ _ _ _].
  split_and!.
  - apply acked_ids_from.
  - rewrite Hids. rewrite webhooks_state_after. cbn [webhooks init app].
    by rewrite length_published.
  - reflexivity.
  - intros h b now s e. split_and!; [reflexivity | reflexivity |].
    rewrite max_id_positions by done. reflexivity.
Qed.

(** *** A registered subscriber *)

(** While a response is registered, every callback other than its own
    [close] listener keeps it registered and keeps what it received equal
    to the whole log. *)
Lemma registered_step (res : Res) (c : Callback) (s : State) :
  Shape s ->
  res ∈ sseClients s ->
  received s res = map SseData (webhooks s) ->
  closes res c = false ->
  res ∈ sseClients (handle c s).2 /\
  received (handle c s).2 res = map SseData (webhooks (handle c s).2).
Proof.
  intros [_ Hnd Hiss _ _] Hin Hrecv Hc. unfold received in *.
  destruct c; cbn [handle].
  - done.
  - by destruct (ConfigStore.post_configs _ _).
  - by destruct (ConfigStore.delete_config _ _).
  - cbn. rewrite fan_out_present by done.
    by rewrite Hrecv, map_app.
  - cbn. split; [apply elem_of_app; by left |].
    rewrite replay_other; [done |]. apply Hiss in Hin. lia.
  - cbn [snd closes] in *. apply Nat.eqb_neq in Hc.
    destruct (on_close_rest res0 s) as (_ & -> & -> & _).
    rewrite on_close_clients. split; [| done].
    apply remove_first_keeps; [congruence | done].
Qed.

Lemma registered_run (res : Res) (tr : list Callback) (s : State) :
  Shape s ->
  res ∈ sseClients s ->
  received s res = map SseData (webhooks s) ->
  forallb (fun c => negb (closes res c)) tr = true ->
  received (state_after tr s) res = map SseData (webhooks (state_after tr s)).
Proof.
  revert s. induction tr as [| c tr IH]; intros s Hs Hin Hrecv Htr; [done |].
  cbn [forallb] in Htr. apply andb_true_iff in Htr as [Hc Htr].
  apply negb_true_iff in Hc.
  destruct (registered_step res c s Hs Hin Hrecv Hc) as [Hin' Hrecv'].
  rewrite state_after_cons. apply IH; auto using Shape_handle.
Qed.

(** C2: a subscriber that attaches when the log holds K events is sent
    exactly those K events, in log order, by the attaching call itself;
    as long as its [close] listener has not run, everything it has been
    sent is the backlog followed by the events published since, each
    once and in publish order.  The ids of the whole sequence are
    1, 2, ... without a repeat. *)
Theorem subscriber_gets_backlog_then_live (before after : list Callback) :
  let s := state_after before init in
  let res := next_res s in
  forallb (fun c => negb (closes res c)) after = true ->
  let attached := (handle GET_events s).2 in
  let final := state_after after attached in
  (handle GET_events s).1 = Replied (Streaming res) /\
  received s res = [] /\
  received attached res = map SseData (webhooks s) /\
  received final res =
    map SseData (webhooks s) ++ map SseData (published after attached) /\
  webhooks final = webhooks s ++ published after attached /\
  ids_are_positions (webhooks s ++ published after attached).
Proof.
  intros s res Hafter attached final.
  pose proof (Shape_reachable before) as Hs. fold s in Hs.
  assert (Ha : Shape attached) by (by apply Shape_handle).
  assert (Hnone : received s res = []).
  { apply (shape_fresh s Hs). unfold res. lia. }
  assert (Hback : received attached res = map SseData (webhooks s)).
  { unfold received in *. cbn. fold res. by rewrite replay_same, Hnone. }
  assert (Hlog : webhooks final = webhooks s ++ published after attached).
  { unfold final. by rewrite webhooks_state_after. }
  split_and!; try done.
  - rewrite <- map_app, <- Hlog. unfold final.
    apply registered_run; try done.
    cbn. apply elem_of_app. right. apply list_elem_of_here.
  - rewrite <- Hlog. apply (shape_ids final).
    by apply Shape_state_after.
Qed.

(** *** A subscriber whose connection closed *)

Lemma detached_step (res : Res) (c : Callback) (s : State) :
  res ∉ sseClients s ->
  (res < next_res s)%nat ->
  (res ∉ sseClients (handle c s).2) /\
  (res < next_res (handle c s).2)%nat /\
  received (handle c s).2 res = received s res.
Proof.
  intros Hout Hlt. unfold received. destruct c; cbn [handle].
  - done.
  - by destruct (ConfigStore.post_configs _ _).
  - by destruct (ConfigStore.delete_config _ _).
  - cbn. by rewrite fan_out_absent.
  - cbn. split_and!; [| lia | apply replay_other; lia].
    intros [H | ->%list_elem_of_singleton]%elem_of_app; [done | lia].
  - cbn [snd]. destruct (on_close_rest res0 s) as (_ & _ & -> & ->).
    rewrite on_close_clients. split_and!; [| done | done].
    intros H. apply Hout.
    eapply elem_of_sublist; [exact H | apply remove_first_sublist].
Qed.

Lemma detached_run (res : Res) (tr : list Callback) (s : State) :
  res ∉ sseClients s ->
  (res < next_res s)%nat ->
  (res ∉ sseClients (state_after tr s)) /\
  received (state_after tr s) res = received s res.
Proof.
  revert s. induction tr as [| c tr IH]; intros s Hout Hlt; [done |].
  destruct (detached_step res c s Hout Hlt) as (Hout' & Hlt' & Hrecv).
  rewrite state_after_cons. destruct (IH _ Hout' Hlt') as [? ->]. done.
Qed.

(** C7: once the [close] listener of a response has run, the response is
    out of [sseClients] and stays out, and no later callback writes to
    it; running the listener again changes nothing, and so does running
    the listener of a response that was never created. *)
Theorem closed_subscriber_gets_nothing (before after : list Callback)
    (res : Res) :
  let s := state_after before init in
  (res < next_res s)%nat ->
  let closed := on_close res s in
  (res ∉ sseClients closed) /\
  (res ∉ sseClients (state_after after closed)) /\
  received (state_after after closed) res = received s res /\
  on_close res closed = closed /\
  forall n, on_close (next_res s + n)%nat s = s.
Proof.
  intros s Hlt closed.
  pose proof (Shape_reachable before) as Hs. fold s in Hs.
  destruct (on_close_rest res s) as (_ & _ & Hwire & Hnext).
  assert (Hout : res ∉ sseClients closed).
  { unfold closed. rewrite on_close_clients.
    apply remove_first_gone, (shape_nodup s Hs). }
  assert (Hlt' : (res < next_res closed)%nat) by (unfold closed; lia).
  destruct (detached_run res after closed Hout Hlt') as [Hout' Hrecv].
  split_and!; try done.
  - rewrite Hrecv. unfold received, closed. by rewrite Hwire.
  - by apply on_close_unknown.
  - intros n. apply on_close_unknown. intros Hin.
    apply (shape_issued s Hs) in Hin. lia.
Qed.

(** *** What a receive call records *)

Lemma obj_get_plain (own : gmap string JsValue) (k : string) :
  k = "content-type"%string \/ k = "user-agent"%string ->
  obj_get own k = default JUndefined (own !! k).
Proof.
  intros [-> | ->]; unfold obj_get; by destruct (own !! _).
Qed.

Lemma projected_lookup (h : gmap string JsValue) (k : string) :
  k = "content-type"%string \/ k = "user-agent"%string ->
  projected h !! k = h !! k.
Proof.
  intros Hk. unfold projected. apply option_eq. intros v.
  rewrite map_lookup_filter_Some. cbn [fst]. tauto.
Qed.

Lemma projected_others (h : gmap string JsValue) (k : string) :
  k <> "content-type"%string -> k <> "user-agent"%string ->
  projected h !! k = None.
Proof.
  intros H1 H2. unfold projected. apply map_lookup_filter_None.
  right. intros v _ [? | ?]; simplify_eq/=.
Qed.

(** The event depends on the request headers through the two names only. *)
Lemma make_event_headers (log : list Event) (h h' : gmap string JsValue)
    (b : JsValue) (now : Z) :
  h' !! "content-type"%string = h !! "content-type"%string ->
  h' !! "user-agent"%string = h !! "user-agent"%string ->
  make_event log h' b now = make_event log h b now.
Proof.
  intros H1 H2. unfold make_event, obj_get. by rewrite H1, H2.
Qed.

(** C6: the event a receive call appends has a [headers] object with the
    two members [content-type] and [user-agent], each holding the request
    header of that name ([undefined] when the request has none); a request
    header of any other name leaves no trace: adding, changing or dropping
    it gives the same event.  The body is stored as received and the call
    is acknowledged whatever the body is. *)
Theorem receive_keeps_two_headers (s : State) (h : gmap string JsValue)
    (b : JsValue) (now : Z) (k : string) (v : JsValue) :
  k <> "content-type"%string ->
  k <> "user-agent"%string ->
  let e := make_event (webhooks s) h b now in
  (handle (POST_webhook_receive h b now) s).1 =
    Replied (Json 200 (JObj [("ok", JBool true); ("id", JNum (id e))]%string)) /\
  webhooks (handle (POST_webhook_receive h b now) s).2 = webhooks s ++ [e] /\
  headers e =
    JObj [("content-type", default JUndefined (h !! "content-type"%string));
          ("user-agent", default JUndefined (h !! "user-agent"%string))]%string /\
  body e = b /\
  make_event (webhooks s) (<[k := v]> h) b now = e /\
  make_event (webhooks s) (delete k h) b now = e /\
  make_event (webhooks s) (projected h) b now = e.
Proof.
  intros H1 H2 e. split_and!; try reflexivity.
  - apply make_event_headers; by rewrite lookup_insert_ne.
  - apply make_event_headers; by rewrite lookup_delete_ne.
  - apply make_event_headers; apply projected_lookup; auto.
Qed.

(** *** Arrival times *)

Lemma nondecreasing_cons (a : Z) (l : list Z) :
  nondecreasing (a :: l) = true ->
  nondecreasing l = true /\ forall x, x ∈ l -> a <= x.
Proof.
  revert a. induction l as [| b l IH]; intros a H.
  - split; [reflexivity |]. intros x Hx. by apply elem_of_nil in Hx.
  - change (nondecreasing (a :: b :: l))
      with ((a <=? b) && nondecreasing (b :: l)) in H.
    apply andb_true_iff in H as [Hab Hl]. apply Z.leb_le in Hab.
    split; [done |]. destruct (IH b Hl) as [_ Hb].
    intros x [-> | Hx]%elem_of_cons; [done |].
    specialize (Hb x Hx). lia.
Qed.

Lemma timestamps_run (tr : list Callback) (s : State) :
  ids_are_positions (webhooks s) ->
  timestamps_follow_ids (webhooks s) ->
  nondecreasing (clock_readings tr) = true ->
  (forall e t, e ∈ webhooks s -> t ∈ clock_readings tr -> receivedAt e <= t) ->
  timestamps_follow_ids (webhooks (state_after tr s)).
Proof.
  revert s. induction tr as [| c tr IH]; intros s Hids Hts Hclock Hle; [done |].
  rewrite state_after_cons.
  destruct (is_receive c) eqn:Hc.
  - destruct c; try discriminate. rewrite handle_receive. cbn [snd].
    cbn [clock_readings omap] in Hclock, Hle.
    change (omap _ tr) with (clock_readings tr) in Hclock, Hle.
    apply nondecreasing_cons in Hclock as [Hclock Hnow].
    set (e := make_event (webhooks s) req_headers req_body now).
    apply IH; cbn [webhooks]; try done.
    + by apply ids_are_positions_snoc.
    + intros e1 e2 [H1 | ->%list_elem_of_singleton]%elem_of_app
                   [H2 | ->%list_elem_of_singleton]%elem_of_app Hlt.
      * by apply Hts.
      * cbn [receivedAt e make_event]. apply Hle; [done | apply list_elem_of_here].
      * apply (id_in_positions _ _ Hids) in H2.
        cbn [id e make_event] in Hlt. lia.
      * lia.
    + intros e' t [H1 | ->%list_elem_of_singleton]%elem_of_app Ht.
      * apply Hle; [done | by apply list_elem_of_further].
      * cbn [receivedAt e make_event]. by apply Hnow.
  - assert (Hw : webhooks (handle c s).2 = webhooks s).
    { rewrite handle_webhooks. destruct c; try discriminate; apply app_nil_r. }
    assert (Hr : clock_readings (c :: tr) = clock_readings tr).
    { destruct c; try discriminate; reflexivity. }
    rewrite Hr in Hclock, Hle. apply IH; rewrite ?Hw; done.
Qed.

(** C9, as the code has it: when the clock readings taken by the receive
    calls of a run never decrease from one call to the next, an event
    with a smaller id has an arrival time that is not later. *)
Theorem timestamps_follow_ids_under_monotone_clock (tr : list Callback) :
  nondecreasing (clock_readings tr) = true ->
  timestamps_follow_ids (webhooks (state_after tr init)).
Proof.
  intros H. apply timestamps_run; cbn; try done.
  - intros e1 e2 H1. by apply elem_of_nil in H1.
  - intros e t H1. by apply elem_of_nil in H1.
Qed.

Lemma step_back_log :
  webhooks (state_after [POST_webhook_receive ∅ (JObj []) 1700000002000;
                         POST_webhook_receive ∅ (JObj []) 1700000001000] init) =
    [make_event [] ∅ (JObj []) 1700000002000;
     make_event [make_event [] ∅ (JObj []) 1700000002000] ∅ (JObj [])
                1700000001000].
Proof. reflexivity. Qed.

(** C9 as stated fails: two receive calls between which the wall clock
    is set back one second leave event 1 with a later arrival time than
    event 2. *)
Lemma clock_step_back_breaks_order :
  ~ timestamps_follow_ids
      (webhooks (state_after
         [POST_webhook_receive ∅ (JObj []) 1700000002000;
          POST_webhook_receive ∅ (JObj []) 1700000001000] init)).
Proof.
  rewrite step_back_log. intros H.
  specialize (H (make_event [] ∅ (JObj []) 1700000002000)
                (make_event [make_event [] ∅ (JObj []) 1700000002000] ∅
                            (JObj []) 1700000001000)).
  cbn in H. assert (1700000002000 <= 1700000001000); [| lia].
  apply H; [apply list_elem_of_here | | lia].
  apply list_elem_of_further, list_elem_of_here.
Qed.

(** *** Config handlers inside the server *)

Lemma post_configs_other (file : gmap string JsValue) (req_body : JsValue)
    (k : string) :
  (forall n, destructure req_body "name" = Some (JStr n) -> k <> trim n) ->
  (ConfigStore.post_configs req_body file).2 !! k = file !! k.
Proof.
  intros Hk. unfold ConfigStore.post_configs.
  destruct (destructure req_body "name") as [name |]; [| done].
  destruct (destructure req_body "rules") as [rules |]; [| done].
  destruct (truthy name); [| done]. cbn [negb].
  destruct name; try done. cbn [call_trim].
  destruct (truthy (JStr (trim s))); [| done]. cbn [negb].
  destruct (negb (truthy rules) || negb (isArray rules)); [done |].
  cbn [snd]. unfold ConfigStore.writeConfigs, ConfigStore.readConfigs.
  apply ConfigStoreFacts.obj_set_other. by apply Hk.
Qed.

Lemma delete_config_other (file : gmap string JsValue) (name k : string) :
  k <> name -> (ConfigStore.delete_config name file).2 !! k = file !! k.
Proof.
  intros Hk. unfold ConfigStore.delete_config.
  destruct (negb _); [done |]. cbn [snd].
  unfold ConfigStore.writeConfigs, ConfigStore.readConfigs, obj_delete.
  by rewrite lookup_delete_ne.
Qed.

(** What get answers for a name depends on the entry of that name only. *)
Lemma get_config_ext (file file' : gmap string JsValue) (k : string) :
  file' !! k = file !! k ->
  ConfigStore.get_config k file' = ConfigStore.get_config k file.
Proof.
  intros H. unfold ConfigStore.get_config, ConfigStore.readConfigs, obj_get.
  by rewrite H.
Qed.

(** No config handler touches the log, the subscribers or their streams,
    whatever the request. *)
Lemma config_ops_memory (c : Callback) (s : State) :
  match c with
  | GET_config _ | POST_configs _ | DELETE_config _ => True
  | _ => False
  end ->
  webhooks (handle c s).2 = webhooks s /\
  sseClients (handle c s).2 = sseClients s /\
  wire (handle c s).2 = wire s /\
  next_res (handle c s).2 = next_res s.
Proof.
  destruct c; try done; intros _; cbn [handle].
  - by destruct (ConfigStore.post_configs _ _).
  - by destruct (ConfigStore.delete_config _ _).
Qed.

(** C10: a save leaves the entry of every name other than the trimmed
    name as it was, and a delete the entry of every name other than the
    one deleted, so that a get of such a name answers as before; neither
    changes the event log, the subscriber array or what was written to
    the subscribers. *)
Theorem config_ops_frame (s : State) (name deleted k : string)
    (rules : JsValue) :
  k <> trim name ->
  k <> deleted ->
  let saved :=
    (handle (POST_configs (ConfigStore.save_body (JStr name) rules)) s).2 in
  let removed := (handle (DELETE_config deleted) s).2 in
  (configs_file saved !! k = configs_file s !! k /\
   ConfigStore.get_config k (configs_file saved) =
     ConfigStore.get_config k (configs_file s) /\
   webhooks saved = webhooks s /\
   sseClients saved = sseClients s /\
   wire saved = wire s) /\
  (configs_file removed !! k = configs_file s !! k /\
   ConfigStore.get_config k (configs_file removed) =
     ConfigStore.get_config k (configs_file s) /\
   webhooks removed = webhooks s /\
   sseClients removed = sseClients s /\
   wire removed = wire s).
Proof.
  intros Hs Hd saved removed.
  assert (Es : configs_file saved !! k = configs_file s !! k).
  { unfold saved. cbn [handle].
    rewrite <- (post_configs_other (configs_file s)
                  (ConfigStore.save_body (JStr name) rules) k).
    - by destruct (ConfigStore.post_configs _ _).
    - intros n. rewrite ConfigStoreFacts.destructure_name. by intros [= <-]. }
  assert (Ed : configs_file removed !! k = configs_file s !! k).
  { unfold removed. cbn [handle].
    rewrite <- (delete_config_other (configs_file s) deleted k Hd).
    by destruct (ConfigStore.delete_config _ _). }
  destruct (config_ops_memory
              (POST_configs (ConfigStore.save_body (JStr name) rules)) s I)
    as (? & ? & ? & _).
  destruct (config_ops_memory (DELETE_config deleted) s I) as (? & ? & ? & _).
  split; split_and!; try done; by apply get_config_ext.
Qed.

(** In every state the server reaches, a stored name is stored with a rule
    list, which get answers and delete removes. *)
Lemma reachable_present_found (tr : list Callback) (name : string)
    (v : JsValue) :
  let file := configs_file (state_after tr init) in
  file !! name = Some v ->
  ConfigStore.get_config name file =
    Json 200 (JObj [("ok", JBool true); ("name", JStr name);
                    ("rules", v)]%string) /\
  isArray v = true /\
  (ConfigStore.delete_config name file).1 =
    Json 200 (JObj [("ok", JBool true)]%string) /\
  (ConfigStore.delete_config name file).2 !! name = None.
Proof.
  intros file Hv.
  destruct (ConfigStoreFacts.stored_is_list file name v) as [rules ->];
    [apply (shape_file _ (Shape_reachable tr)) | done |].
  destruct (ConfigStoreFacts.present_found file name rules Hv) as (-> & -> & ?).
  done.
Qed.

(** *** The theorems at concrete runs *)

Lemma subscriber_gets_backlog_then_live_witness :
  forallb (fun c => negb (closes 0%nat c))
    [POST_webhook_receive ∅ (JObj []) 20; GET_events; Close 1%nat;
     POST_webhook_receive ∅ JNull 30] = true /\
  received
    (state_after
       [POST_webhook_receive ∅ (JObj []) 20; GET_events; Close 1%nat;
        POST_webhook_receive ∅ JNull 30]
       (handle GET_events
          (state_after [POST_webhook_receive ∅ (JObj []) 10] init)).2)
    0%nat =
  [SseData (make_event [] ∅ (JObj []) 10);
   SseData (make_event [make_event [] ∅ (JObj []) 10] ∅ (JObj []) 20);
   SseData (make_event [make_event [] ∅ (JObj []) 10;
                        make_event [make_event [] ∅ (JObj []) 10] ∅
                                   (JObj []) 20] ∅ JNull 30)].
Proof.
  split; [reflexivity |].
  pose proof (subscriber_gets_backlog_then_live
                [POST_webhook_receive ∅ (JObj []) 10]
                [POST_webhook_receive ∅ (JObj []) 20; GET_events; Close 1%nat;
                 POST_webhook_receive ∅ JNull 30] eq_refl) as H.
  cbv zeta in H. destruct H as (_ & _ & _ & H & _).
  exact (eq_trans H eq_refl).
Defined.

Lemma receive_keeps_two_headers_witness :
  "x-signature"%string <> "content-type"%string /\
  "x-signature"%string <> "user-agent"%string /\
  make_event []
    (<["x-signature"%string := JStr "abc"]>
       {["content-type"%string := JStr "application/json"]})
    (JObj [("foo", JNum 1)]%string) 5 =
  make_event [] {["content-type"%string := JStr "application/json"]}
    (JObj [("foo", JNum 1)]%string) 5.
Proof.
  split; [discriminate |]. split; [discriminate |].
  pose proof (receive_keeps_two_headers init
                {["content-type"%string := JStr "application/json"]}
                (JObj [("foo", JNum 1)]%string) 5
                "x-signature"%string (JStr "abc")) as H.
  cbv zeta in H. destruct H as (_ & _ & _ & _ & H & _); [discriminate .. |].
  exact H.
Defined.

Lemma closed_subscriber_gets_nothing_witness :
  (0 < next_res (state_after [GET_events] init))%nat /\
  received
    (state_after [POST_webhook_receive ∅ JNull 1; Close 0%nat]
       (on_close 0%nat (state_after [GET_events] init)))
    0%nat =
  received (state_after [GET_events] init) 0%nat.
Proof.
  split; [cbn; lia |].
  pose proof (closed_subscriber_gets_nothing [GET_events]
                [POST_webhook_receive ∅ JNull 1; Close 0%nat] 0%nat) as H.
  cbv zeta in H. destruct H as (_ & _ & H & _); [cbn; lia |].
  exact H.
Defined.

Lemma timestamps_follow_ids_under_monotone_clock_witness :
  nondecreasing
    (clock_readings [POST_webhook_receive ∅ JNull 1000; GET_events;
                     POST_webhook_receive ∅ JNull 1000;
                     POST_webhook_receive ∅ JNull 2000]) = true /\
  timestamps_follow_ids
    (webhooks (state_after [POST_webhook_receive ∅ JNull 1000; GET_events;
                            POST_webhook_receive ∅ JNull 1000;
                            POST_webhook_receive ∅ JNull 2000] init)).
Proof.
  split; [reflexivity |].
  apply (timestamps_follow_ids_under_monotone_clock
           [POST_webhook_receive ∅ JNull 1000; GET_events;
            POST_webhook_receive ∅ JNull 1000;
            POST_webhook_receive ∅ JNull 2000]).
  reflexivity.
Defined.

Lemma config_ops_frame_witness :
  "b"%string <> trim " a " /\
  "b"%string <> "c"%string /\
  configs_file
    (handle (POST_configs (ConfigStore.save_body (JStr " a ") (JArr [])))
       (state_after
          [POST_configs (ConfigStore.save_body (JStr "b") (JArr [JNum 1]))]
          init)).2 !! "b"%string =
  Some (JArr [JNum 1]).
Proof.
  split; [discriminate |]. split; [discriminate |].
  pose proof (config_ops_frame
                (state_after
                   [POST_configs
                      (ConfigStore.save_body (JStr "b") (JArr [JNum 1]))] init)
                " a " "c" "b" (JArr [])) as H.
  cbv zeta in H. destruct H as ((H & _) & _); [discriminate .. |].
  rewrite H. reflexivity.
Defined.

End ServerFacts.

(** ** Relay *)

Module RelayFacts.
Import Relay.

(** When the body of the request can be destructured (it is not
    [undefined] or [null]): a relay request whose url is missing, empty
    or otherwise falsy is answered 400 and nothing is sent; with a url,
    the request is sent
    once, and then a rejected [fetch] or a rejected read of the response
    text is answered 502 with the message of the error, and a response
    whose text was read is answered [{ok: true}] with its status, its
    status text and its body, parsed as JSON when it parses and as text
    when it does not. *)
Theorem relay_outcomes (JSON_parse : string -> option JsValue) (net : Network)
    (req_body url payload : JsValue) :
  destructure req_body "url" = Some url ->
  destructure req_body "payload" = Some payload ->
  let init := relay_init payload in
  let result := settle net (post_webhook_send JSON_parse req_body) in
  truthy JUndefined = false /\
  truthy (JStr "") = false /\
  (truthy url = false ->
   result = (Json 400 (ok_false "Missing target URL"), [])) /\
  (truthy url = true ->
   forall message,
     fetch net url init = Rejected message \/
     (exists response, fetch net url init = Fulfilled response /\
                       text net response = Rejected message) ->
     result =
       (Json 502 (JObj [("ok", JBool false); ("error", JStr message)]%string),
        [(url, init)])) /\
  (truthy url = true ->
   forall response body_text,
     fetch net url init = Fulfilled response ->
     text net response = Fulfilled body_text ->
     result =
       (Json 200 (JObj [("ok", JBool true);
                        ("status", JNum (status response));
                        ("statusText", JStr (statusText response));
                        ("body", default (JStr body_text)
                                         (JSON_parse body_text))]%string),
        [(url, init)])).
Proof.
  intros Hurl Hpayload init result. subst init result.
  unfold post_webhook_send. rewrite Hurl, Hpayload.
  split_and!; try reflexivity.
  - by intros ->.
  - intros -> message [H | (response & H1 & H2)]; cbn [negb settle].
    + by rewrite H.
    + rewrite H1. cbn [settle]. by rewrite H2.
  - intros -> response body_text H1 H2. cbn [negb settle].
    rewrite H1. cbn [settle]. rewrite H2. unfold decode.
    by destruct (JSON_parse body_text).
Qed.

Lemma relay_outcomes_witness :
  truthy (JStr "http://bad.invalid") = true /\
  settle {| fetch := fun _ _ => Rejected "fetch failed";
            text := fun _ => Fulfilled ""%string |}
    (post_webhook_send (fun _ => None)
       (send_body (JStr "http://bad.invalid") JUndefined)) =
  (Json 502 (JObj [("ok", JBool false); ("error", JStr "fetch failed")]%string),
   [(JStr "http://bad.invalid", relay_init JUndefined)]).
Proof.
  split; [reflexivity |].
  pose proof (relay_outcomes (fun _ => None)
                {| fetch := fun _ _ => Rejected "fetch failed";
                   text := fun _ => Fulfilled ""%string |}
                (send_body (JStr "http://bad.invalid") JUndefined)
                (JStr "http://bad.invalid") JUndefined eq_refl eq_refl) as H.
  cbv zeta in H. destruct H as (_ & _ & _ & H & _).
  apply (H eq_refl "fetch failed"%string). left. reflexivity.
Defined.

(** C8, at a request without a body: [req.body] is [undefined], so the url
    is missing, yet the handler does not answer 400: destructuring
    [req.body] throws [TypeError] before the url is tested, and the
    exception leaves the handler.  No request is sent out. *)
Theorem relay_without_body_throws (JSON_parse : string -> option JsValue)
    (net : Network) :
  destructure JUndefined "url" = None /\
  settle net (post_webhook_send JSON_parse JUndefined) =
    (Throws "TypeError: Cannot destructure property of req.body", []) /\
  forall reply,
    (settle net (post_webhook_send JSON_parse JUndefined)).1 <> Json 400 reply.
Proof. repeat split. intros reply. cbn. discriminate. Qed.

End RelayFacts.

(** ** The configs object with its key order *)

Module OrderedObjectFacts.
Import OrderedObject.

(** *** Array-index keys *)

Lemma digit_range (c : ascii) (d : Z) : digit c = Some d -> 0 <= d <= 9.
Proof.
  unfold digit. destruct (_ && _) eqn:E; [| discriminate].
  intros [= <-]. lia.
Qed.

Lemma digit_inj (c1 c2 : ascii) (d : Z) :
  digit c1 = Some d -> digit c2 = Some d -> c1 = c2.
Proof.
  unfold digit.
  destruct (_ && _); [| discriminate]. destruct (_ && _); [| discriminate].
  intros [= <-] [= H].
  assert (E : Ascii.nat_of_ascii c1 = Ascii.nat_of_ascii c2) by lia.
  rewrite <- (Ascii.ascii_nat_embedding c1), <- (Ascii.ascii_nat_embedding c2).
  by rewrite E.
Qed.

Lemma digits_value_shift (s : string) (acc : Z) :
  digits_value s acc =
    (fun v => acc * 10 ^ Z.of_nat (String.length s) + v) <$> digits_value s 0.
Proof.
  revert acc. induction s as [| c s IH]; intros acc.
  - cbn. f_equal. lia.
  - cbn [digits_value String.length]. destruct (digit c) as [d |]; [| done].
    rewrite (IH (10 * acc + d)), (IH (10 * 0 + d)).
    destruct (digits_value s 0) as [v |]; [| done]. cbn. f_equal.
    rewrite Nat2Z.inj_succ, Z.pow_succ_r by lia. lia.
Qed.

Lemma digits_value_cons (c : ascii) (s : string) (v : Z) :
  digits_value (String c s) 0 = Some v ->
  exists d w, digit c = Some d /\ digits_value s 0 = Some w /\
              v = d * 10 ^ Z.of_nat (String.length s) + w.
Proof.
  cbn [digits_value]. destruct (digit c) as [d |]; [| discriminate].
  rewrite digits_value_shift.
  destruct (digits_value s 0) as [w |]; [| discriminate].
  cbn. intros [= <-]. exists d, w. split_and!; done.
Qed.

Lemma digits_value_bound (s : string) (v : Z) :
  digits_value s 0 = Some v -> 0 <= v < 10 ^ Z.of_nat (String.length s).
Proof.
  revert v. induction s as [| c s IH]; intros v.
  - cbn. intros [= <-]. lia.
  - intros (d & w & Hd & Hw & ->)%digits_value_cons.
    apply digit_range in Hd. specialize (IH w Hw).
    cbn [String.length]. rewrite Nat2Z.inj_succ, Z.pow_succ_r by lia. nia.
Qed.

Lemma digits_value_inj (s1 s2 : string) (v : Z) :
  String.length s1 = String.length s2 ->
  digits_value s1 0 = Some v -> digits_value s2 0 = Some v -> s1 = s2.
Proof.
  revert s2 v. induction s1 as [| c1 s1 IH]; intros [| c2 s2] v Hlen;
    try discriminate; [done |].
  injection Hlen as Hlen.
  intros (d1 & w1 & Hd1 & Hw1 & ->)%digits_value_cons
         (d2 & w2 & Hd2 & Hw2 & E)%digits_value_cons.
  rewrite Hlen in E.
  pose proof (digits_value_bound _ _ Hw1) as B1.
  pose proof (digits_value_bound _ _ Hw2) as B2.
  rewrite Hlen in B1.
  assert (d1 = d2) as -> by nia.
  assert (w1 = w2) as -> by lia.
  f_equal; [by eapply digit_inj | by eapply IH].
Qed.

Lemma array_index_digits (k : string) (n : Z) :
  array_index k = Some n ->
  exists c rest, k = String c rest /\ digits_value k 0 = Some n /\
                 (c <> "0"%char \/ rest = EmptyString) /\ n < 4294967295.
Proof.
  destruct k as [| c rest]; [discriminate |]. unfold array_index.
  destruct (digits_value (String c rest) 0) as [v |]; [| discriminate].
  destruct (_ && _) eqn:E; [| discriminate]. intros [= <-].
  apply andb_true_iff in E as [E1 E2]. apply Z.ltb_lt in E2.
  exists c, rest. split_and!; try done.
  apply orb_true_iff in E1 as [E1 | E1].
  - left. intros ->. discriminate.
  - right. by apply String.eqb_eq.
Qed.

Lemma leading_digit_bounds (c : ascii) (rest : string) (n : Z) :
  c <> "0"%char ->
  digits_value (String c rest) 0 = Some n ->
  10 ^ Z.of_nat (String.length rest) <= n
    < 10 ^ (Z.of_nat (String.length rest) + 1).
Proof.
  intros Hc (d & w & Hd & Hw & ->)%digits_value_cons.
  pose proof (digit_range _ _ Hd). pose proof (digits_value_bound _ _ Hw).
  assert (d <> 0).
  { intros ->. apply Hc. by apply (digit_inj _ _ 0). }
  rewrite Z.pow_add_r by lia. nia.
Qed.

(** Two keys with the same index are the same key. *)
Lemma array_index_inj (k1 k2 : string) (n : Z) :
  array_index k1 = Some n -> array_index k2 = Some n -> k1 = k2.
Proof.
  intros (c1 & r1 & -> & H1 & L1 & _)%array_index_digits
         (c2 & r2 & -> & H2 & L2 & _)%array_index_digits.
  apply (digits_value_inj _ _ n); try done.
  cbn [String.length]. f_equal.
  assert (Hz : forall c r, c = "0"%char -> r = EmptyString ->
                 digits_value (String c r) 0 = Some n -> n = 0).
  { intros c r -> ->. cbn. by intros [= <-]. }
  destruct (decide (c1 = "0"%char)) as [E1 | N1];
    destruct (decide (c2 = "0"%char)) as [E2 | N2].
  - destruct L1 as [? | ->]; [done |]. destruct L2 as [? | ->]; done.
  - destruct L1 as [? | ->]; [done |].
    pose proof (Hz _ _ E1 eq_refl H1).
    pose proof (leading_digit_bounds _ _ _ N2 H2) as [B _].
    assert (0 < 10 ^ Z.of_nat (String.length r2)) by (apply Z.pow_pos_nonneg; lia).
    lia.
  - destruct L2 as [? | ->]; [done |].
    pose proof (Hz _ _ E2 eq_refl H2).
    pose proof (leading_digit_bounds _ _ _ N1 H1) as [B _].
    assert (0 < 10 ^ Z.of_nat (String.length r1)) by (apply Z.pow_pos_nonneg; lia).
    lia.
  - pose proof (leading_digit_bounds _ _ _ N1 H1) as [A1 B1].
    pose proof (leading_digit_bounds _ _ _ N2 H2) as [A2 B2].
    destruct (Nat.lt_trichotomy (String.length r1) (String.length r2))
      as [Hlt | [-> | Hlt]]; [| done |].
    + assert (10 ^ (Z.of_nat (String.length r1) + 1)
              <= 10 ^ Z.of_nat (String.length r2))
        by (apply Z.pow_le_mono_r; lia).
      lia.
    + assert (10 ^ (Z.of_nat (String.length r2) + 1)
              <= 10 ^ Z.of_nat (String.length r1))
        by (apply Z.pow_le_mono_r; lia).
      lia.
Qed.

(** *** Own properties *)

Lemma own_lookup_None (o : Members) (k : string) :
  own_lookup o k = None <-> k ∉ Object_keys o.
Proof.
  induction o as [| [k' v] o IH]; cbn.
  - split; [intros _; apply not_elem_of_nil | done].
  - rewrite not_elem_of_cons.
    destruct (String.eqb_spec k' k) as [-> | Hne].
    + split; [discriminate | intros [? _]; done].
    + rewrite IH. split; [intros ?; split; [congruence | done] | by intros [_ ?]].
Qed.

Lemma own_lookup_Some_key (o : Members) (k : string) (v : JsValue) :
  own_lookup o k = Some v -> k ∈ Object_keys o.
Proof.
  intros H. destruct (decide (k ∈ Object_keys o)) as [| Hout]; [done |].
  apply own_lookup_None in Hout. congruence.
Qed.

Lemma own_lookup_app (o1 o2 : Members) (k : string) :
  own_lookup (o1 ++ o2) k =
    match own_lookup o1 k with
    | Some v => Some v
    | None => own_lookup o2 k
    end.
Proof.
  induction o1 as [| [k' v] o1 IH]; cbn; [done |].
  by destruct (String.eqb k' k).
Qed.

Lemma to_map_lookup (o : Members) (k : string) :
  to_map o !! k = own_lookup o k.
Proof.
  unfold to_map. induction o as [| [k' v] o IH]; cbn.
  - apply lookup_empty.
  - destruct (String.eqb_spec k' k) as [-> | Hne].
    + by rewrite lookup_insert_eq.
    + by rewrite lookup_insert_ne.
Qed.

Lemma keys_replace_value (o : Members) (k : string) (v : JsValue) :
  Object_keys (replace_value o k v) = Object_keys o.
Proof.
  unfold Object_keys. induction o as [| [k' w] o IH]; cbn; [done |].
  destruct (String.eqb k' k); cbn; [done | by rewrite IH].
Qed.

Lemma own_lookup_replace_value (o : Members) (k k' : string) (v : JsValue) :
  own_lookup (replace_value o k v) k' =
    if String.eqb k k' then (fun _ => v) <$> own_lookup o k
    else own_lookup o k'.
Proof.
  induction o as [| [x w] o IH]; cbn.
  - by destruct (String.eqb k k').
  - destruct (String.eqb_spec x k) as [-> | Hx]; cbn.
    + destruct (String.eqb_spec k k') as [-> | Hk]; done.
    + rewrite IH. destruct (String.eqb_spec k k') as [<- | Hk].
      * by destruct (String.eqb_spec x k).
      * done.
Qed.

(** A new index key lands somewhere inside the list, which is otherwise
    unchanged. *)
Lemma insert_index_split (o : Members) (n : Z) (k : string) (v : JsValue) :
  exists o1 o2, o = o1 ++ o2 /\ insert_index o n k v = o1 ++ (k, v) :: o2.
Proof.
  induction o as [| [k' w] o (o1 & o2 & E1 & E2)]; cbn.
  - by exists [], [].
  - destruct (array_index k') as [m |]; [| by exists [], ((k', w) :: o)].
    destruct (m <? n); [| by exists [], ((k', w) :: o)].
    exists ((k', w) :: o1), o2. cbn. by rewrite E2, <- E1.
Qed.

Lemma define_own_split (o : Members) (k : string) (v : JsValue) :
  exists o1 o2, o = o1 ++ o2 /\ define_own o k v = o1 ++ (k, v) :: o2.
Proof.
  unfold define_own. destruct (array_index k) as [n |].
  - apply insert_index_split.
  - exists o, []. by rewrite app_nil_r.
Qed.

Lemma keys_app (o1 o2 : Members) :
  Object_keys (o1 ++ o2) = Object_keys o1 ++ Object_keys o2.
Proof. apply map_app. Qed.

Lemma own_lookup_define_own (o : Members) (k k' : string) (v : JsValue) :
  own_lookup o k = None ->
  own_lookup (define_own o k v) k' =
    if String.eqb k k' then Some v else own_lookup o k'.
Proof.
  intros Hk. destruct (define_own_split o k v) as (o1 & o2 & -> & ->).
  rewrite own_lookup_app in Hk. rewrite !own_lookup_app. cbn.
  destruct (String.eqb_spec k k') as [<- | Hne].
  - destruct (own_lookup o1 k); [discriminate | done].
  - done.
Qed.

Lemma ord_delete_absent (o : Members) (k : string) :
  own_lookup o k = None -> ord_delete o k = o.
Proof.
  unfold ord_delete. induction o as [| [k' w] o IH]; cbn; [done |].
  destruct (String.eqb k' k); [discriminate |]. cbn. intros H. by rewrite IH.
Qed.

Lemma ord_delete_app (o1 o2 : Members) (k : string) :
  ord_delete (o1 ++ o2) k = ord_delete o1 k ++ ord_delete o2 k.
Proof. apply List.filter_app. Qed.

Lemma own_lookup_ord_delete (o : Members) (k k' : string) :
  own_lookup (ord_delete o k) k' =
    if String.eqb k k' then None else own_lookup o k'.
Proof.
  unfold ord_delete. induction o as [| [x w] o IH]; cbn.
  - by destruct (String.eqb k k').
  - destruct (String.eqb_spec x k) as [-> | Hx]; cbn.
    + rewrite IH. destruct (String.eqb_spec k k'); done.
    + rewrite IH. destruct (String.eqb_spec k k') as [E | Hk]; [| done].
      rewrite <- E. by destruct (String.eqb_spec x k).
Qed.

Lemma keys_ord_delete (o : Members) (k : string) :
  Object_keys (ord_delete o k) =
    List.filter (fun x => negb (String.eqb x k)) (Object_keys o).
Proof.
  unfold ord_delete, Object_keys.
  induction o as [| [x w] o IH]; cbn; [done |].
  destruct (String.eqb x k); cbn; by rewrite IH.
Qed.

(** Deleting a key just created gives back the object. *)
Lemma ord_delete_define_own (o : Members) (k : string) (v : JsValue) :
  own_lookup o k = None -> ord_delete (define_own o k v) k = o.
Proof.
  intros Hk. destruct (define_own_split o k v) as (o1 & o2 & -> & ->).
  rewrite own_lookup_app in Hk.
  destruct (own_lookup o1 k) eqn:H1; [discriminate |].
  rewrite !ord_delete_app. cbn. rewrite String.eqb_refl. cbn.
  fold (ord_delete o2 k). by rewrite !ord_delete_absent.
Qed.

(** Assigning to a key just created is creating it with the new value. *)
Lemma replace_value_app_r (o1 o2 : Members) (k : string) (v : JsValue) :
  own_lookup o1 k = None ->
  replace_value (o1 ++ o2) k v = o1 ++ replace_value o2 k v.
Proof.
  induction o1 as [| [x w] o1 IH]; cbn; [done |].
  destruct (String.eqb x k); [discriminate |]. intros H. by rewrite IH.
Qed.

Lemma replace_value_twice (o : Members) (k : string) (v1 v2 : JsValue) :
  replace_value (replace_value o k v1) k v2 = replace_value o k v2.
Proof.
  induction o as [| [x w] o IH]; cbn; [done |].
  destruct (String.eqb x k) eqn:E; cbn; rewrite E; [done | by rewrite IH].
Qed.

(** *** The order of the keys *)

Lemma array_index_nonneg (k : string) (n : Z) :
  array_index k = Some n -> 0 <= n.
Proof.
  intros (c & rest & _ & H & _)%array_index_digits.
  apply digits_value_bound in H. lia.
Qed.

Lemma no_index_ordered (lo : Z) (o : Members) :
  no_index o -> ordered_from lo o.
Proof.
  destruct o as [| [k v] o]; [done |]. intros H. cbn.
  apply Forall_cons in H as [Hk Ho]. cbn in Hk. by rewrite Hk.
Qed.

Lemma ordered_from_weaken (lo lo' : Z) (o : Members) :
  lo' <= lo -> ordered_from lo o -> ordered_from lo' o.
Proof.
  destruct o as [| [k v] o]; [done |]. cbn.
  destruct (array_index k); [| done]. intros ? [? ?]. split; [lia | done].
Qed.

Lemma ordered_from_keys (lo : Z) (o1 o2 : Members) :
  Object_keys o1 = Object_keys o2 -> ordered_from lo o1 -> ordered_from lo o2.
Proof.
  assert (Hn : forall a b : Members,
             Object_keys a = Object_keys b -> no_index a -> no_index b).
  { unfold no_index, Object_keys.
    induction a as [| [ka va] a IHa]; intros [| [kb vb] b] E H;
      try discriminate; [done |].
    cbn in E. injection E as <- E. apply Forall_cons in H as [? ?].
    apply Forall_cons. split; [done | by apply IHa]. }
  revert lo o2. induction o1 as [| [k v] o1 IH]; intros lo [| [k2 v2] o2] E;
    try discriminate; [done |].
  cbn in E. injection E as <- E. cbn.
  destruct (array_index k); [| by apply Hn].
  intros [? ?]. split; [done | by apply IH].
Qed.

Lemma ordered_from_middle (lo : Z) (o1 o2 : Members) (k : string)
    (v : JsValue) (n : Z) :
  array_index k = Some n ->
  ordered_from lo (o1 ++ (k, v) :: o2) -> lo < n.
Proof.
  intros Hk. revert lo. induction o1 as [| [k' w] o1 IH]; intros lo; cbn.
  - rewrite Hk. by intros [? _].
  - destruct (array_index k') as [m |].
    + intros [? H]. apply IH in H. lia.
    + intros H. apply Forall_app in H as [_ H].
      apply Forall_cons in H as [H _]. cbn in H. congruence.
Qed.

Lemma ordered_from_snoc (lo : Z) (o : Members) (k : string) (v : JsValue) :
  array_index k = None ->
  ordered_from lo o -> ordered_from lo (o ++ [(k, v)]).
Proof.
  intros Hk. revert lo. induction o as [| [k' w] o IH]; intros lo; cbn.
  - rewrite Hk. intros _. apply Forall_nil_2.
  - destruct (array_index k') as [m |].
    + intros [? ?]. split; [done | by apply IH].
    + intros H. apply Forall_app. split; [done |].
      apply Forall_cons. split; [done | apply Forall_nil_2].
Qed.

Lemma ordered_from_insert_index (lo : Z) (o : Members) (n : Z) (k : string)
    (v : JsValue) :
  array_index k = Some n ->
  lo < n ->
  k ∉ Object_keys o ->
  ordered_from lo o -> ordered_from lo (insert_index o n k v).
Proof.
  intros Hk. revert lo. induction o as [| [k' w] o IH]; intros lo Hlo Hout; cbn.
  - by rewrite Hk.
  - apply not_elem_of_cons in Hout as [Hne Hout].
    destruct (array_index k') as [m |] eqn:Hk'.
    + intros [? Ho]. destruct (Z.ltb_spec m n).
      * cbn. rewrite Hk'. split; [done | by apply IH].
      * cbn. rewrite Hk, Hk'. split_and!; try done.
        assert (m <> n); [| lia].
        intros ->. apply Hne. by apply (array_index_inj _ _ n).
    + intros Ho. cbn. rewrite Hk, Hk'. done.
Qed.

Lemma ordered_from_delete (lo : Z) (o : Members) (k : string) :
  ordered_from lo o -> ordered_from lo (ord_delete o k).
Proof.
  unfold ord_delete. revert lo.
  induction o as [| [k' w] o IH]; intros lo; cbn; [done |].
  destruct (array_index k') as [m |] eqn:Hk'.
  - intros [? Ho]. destruct (negb _); cbn.
    + rewrite Hk'. split; [done | by apply IH].
    + apply (ordered_from_weaken m); [lia | by apply IH].
  - intros Ho.
    assert (no_index (List.filter (fun kv => negb (String.eqb kv.1 k)) o)).
    { apply Forall_forall. intros x Hx%list_elem_of_In%List.filter_In.
      destruct Hx as [Hx _]. apply list_elem_of_In in Hx.
      by apply (proj1 (Forall_forall _ _) Ho). }
    destruct (negb _); cbn; [by rewrite Hk' | by apply no_index_ordered].
Qed.

Lemma canonical_nil : canonical [].
Proof. split; [apply NoDup_nil_2 | done]. Qed.

Lemma canonical_replace_value (o : Members) (k : string) (v : JsValue) :
  canonical o -> canonical (replace_value o k v).
Proof.
  intros [Hnd Ho]. split.
  - by rewrite keys_replace_value.
  - eapply ordered_from_keys; [| exact Ho]. by rewrite keys_replace_value.
Qed.

Lemma canonical_define_own (o : Members) (k : string) (v : JsValue) :
  own_lookup o k = None -> canonical o -> canonical (define_own o k v).
Proof.
  intros Hk%own_lookup_None [Hnd Ho]. split.
  - destruct (define_own_split o k v) as (o1 & o2 & -> & ->).
    rewrite keys_app in *. cbn.
    apply NoDup_app in Hnd as (H1 & H12 & H2).
    apply NoDup_app. split_and!; [done | |].
    + intros x Hx [-> | Hx2]%elem_of_cons.
      * apply Hk, elem_of_app. by left.
      * by apply (H12 x).
    + apply NoDup_cons. split; [| done].
      intros Hx. apply Hk, elem_of_app. by right.
  - unfold define_own. destruct (array_index k) as [n |] eqn:E.
    + apply ordered_from_insert_index; try done.
      apply array_index_nonneg in E. lia.
    + by apply ordered_from_snoc.
Qed.

Lemma canonical_create_data_property (o : Members) (k : string)
    (v : JsValue) :
  canonical o -> canonical (create_data_property o k v).
Proof.
  intros Ho. unfold create_data_property.
  destruct (own_lookup o k) eqn:E.
  - by apply canonical_replace_value.
  - by apply canonical_define_own.
Qed.

Lemma canonical_ord_set (o : Members) (k : string) (v : JsValue) :
  canonical o -> canonical (ord_set o k v).
Proof.
  intros Ho. unfold ord_set. destruct (own_lookup o k) eqn:E.
  - by apply canonical_replace_value.
  - destruct (String.eqb k "__proto__"); [done |].
    by apply canonical_define_own.
Qed.

Lemma canonical_ord_delete (o : Members) (k : string) :
  canonical o -> canonical (ord_delete o k).
Proof.
  intros [Hnd Ho]. split; [| by apply ordered_from_delete].
  rewrite keys_ord_delete. apply NoDup_ListNoDup, List.NoDup_filter.
  by apply NoDup_ListNoDup.
Qed.

(** Whatever the text, the parsed object has distinct keys in the order of
    [Object.keys]. *)
Lemma canonical_parse (members : Members) :
  canonical (JSON_parse_object members).
Proof.
  unfold JSON_parse_object.
  assert (H : forall acc, canonical acc ->
            canonical (foldl (fun o kv => create_data_property o kv.1 kv.2)
                             acc members)).
  { induction members as [| [k v] ms IH]; intros acc Hacc; [done |].
    cbn. by apply IH, canonical_create_data_property. }
  apply H, canonical_nil.
Qed.

Lemma insert_index_last (lo : Z) (o1 o2 : Members) (k : string)
    (v : JsValue) (n : Z) :
  array_index k = Some n ->
  ordered_from lo (o1 ++ (k, v) :: o2) ->
  insert_index o1 n k v = o1 ++ [(k, v)].
Proof.
  intros Hk. revert lo. induction o1 as [| [k' w] o1 IH]; intros lo; cbn;
    [done |].
  destruct (array_index k') as [m |].
  - intros [_ H]. pose proof (ordered_from_middle _ _ _ _ _ _ Hk H).
    destruct (Z.ltb_spec m n); [| lia]. by rewrite (IH m).
  - intros H. apply Forall_app in H as [_ H].
    apply Forall_cons in H as [H _]. cbn in H. congruence.
Qed.

(** Parsing the own properties of an object, written in the order of
    [Object.keys], builds the same object. *)
Lemma parse_canonical (o : Members) :
  canonical o -> JSON_parse_object o = o.
Proof.
  unfold JSON_parse_object.
  assert (H : forall acc, canonical (acc ++ o) ->
            foldl (fun o kv => create_data_property o kv.1 kv.2) acc o
            = acc ++ o).
  { induction o as [| [k v] o IH]; intros acc Hc; cbn.
    - by rewrite app_nil_r.
    - assert (Hk : own_lookup acc k = None).
      { apply own_lookup_None. destruct Hc as [Hnd _].
        rewrite keys_app in Hnd. apply NoDup_app in Hnd as (_ & H & _).
        intros Hin. apply (H k Hin). cbn. apply list_elem_of_here. }
      assert (E : create_data_property acc k v = acc ++ [(k, v)]).
      { unfold create_data_property, define_own. rewrite Hk.
        destruct (array_index k) as [n |] eqn:En; [| done].
        destruct Hc as [_ Ho]. by eapply insert_index_last. }
      rewrite E, IH; rewrite <- app_assoc; done. }
  apply (H []).
Qed.

(** *** The object as a map *)

Lemma ord_get_to_map (o : Members) (k : string) :
  ord_get o k = obj_get (to_map o) k.
Proof. unfold ord_get, obj_get. by rewrite to_map_lookup. Qed.

Lemma to_map_ord_set (o : Members) (k : string) (v : JsValue) :
  to_map (ord_set o k v) = obj_set (to_map o) k v.
Proof.
  apply map_eq. intros i. rewrite to_map_lookup.
  unfold ord_set, obj_set. rewrite to_map_lookup.
  destruct (own_lookup o k) as [w |] eqn:E.
  - rewrite own_lookup_replace_value, E. cbn.
    destruct (String.eqb_spec k i) as [-> | Hne].
    + by rewrite lookup_insert_eq.
    + by rewrite lookup_insert_ne, to_map_lookup.
  - destruct (String.eqb k "__proto__"); [by rewrite to_map_lookup |].
    rewrite own_lookup_define_own by done.
    destruct (String.eqb_spec k i) as [-> | Hne].
    + by rewrite lookup_insert_eq.
    + by rewrite lookup_insert_ne, to_map_lookup.
Qed.

Lemma to_map_ord_delete (o : Members) (k : string) :
  to_map (ord_delete o k) = obj_delete (to_map o) k.
Proof.
  apply map_eq. intros i. rewrite to_map_lookup, own_lookup_ord_delete.
  unfold obj_delete. destruct (String.eqb_spec k i) as [-> | Hne].
  - by rewrite lookup_delete_eq.
  - by rewrite lookup_delete_ne, to_map_lookup.
Qed.

End OrderedObjectFacts.

(** ** The config handlers on the document with its key order *)

Module FileStoreFacts.
Import OrderedObject OrderedObjectFacts FileStore.

Lemma read_canonical (file : Members) : canonical (readConfigs file).
Proof. apply canonical_parse. Qed.

Lemma read_written (o : Members) :
  canonical o -> readConfigs (writeConfigs o) = o.
Proof. apply parse_canonical. Qed.

Lemma read_read (file : Members) :
  readConfigs (readConfigs file) = readConfigs file.
Proof. apply parse_canonical, canonical_parse. Qed.

(** A handler leaves the document alone or writes an object. *)
Lemma serve_written (r : Request) (file : Members) :
  (serve r file).2 = file \/
  exists o, canonical o /\ (serve r file).2 = writeConfigs o.
Proof.
  destruct r; cbn [serve snd]; try by left.
  - unfold post_configs.
    destruct (destructure req_body "name") as [name |]; [| by left].
    destruct (destructure req_body "rules") as [rules |]; [| by left].
    destruct (negb (truthy name)); [by left |].
    destruct (call_trim name) as [t |]; [| by left].
    destruct (negb (truthy (JStr t))); [by left |].
    destruct (negb (truthy rules) || negb (isArray rules)); [by left |].
    right. eexists. split; [| done]. apply canonical_ord_set, read_canonical.
  - unfold delete_config. destruct (negb _); [by left |].
    right. eexists. split; [| done]. apply canonical_ord_delete, read_canonical.
Qed.

Lemma serve_canonical (r : Request) (file : Members) :
  canonical file -> canonical (serve r file).2.
Proof.
  intros Hf. destruct (serve_written r file) as [-> | (o & Ho & ->)]; done.
Qed.

Lemma file_after_snoc (rs : list Request) (r : Request) (file : Members) :
  file_after (rs ++ [r]) file = (serve r (file_after rs file)).2.
Proof. unfold file_after. by rewrite foldl_app. Qed.

Lemma file_after_canonical (rs : list Request) (file : Members) :
  canonical file -> canonical (file_after rs file).
Proof.
  revert file. induction rs as [| r rs IH]; intros file Hf; [done |].
  cbn. by apply IH, serve_canonical.
Qed.

(** *** Agreement with the handlers on the map *)

Lemma get_config_as_map (name : string) (file : Members) :
  get_config name file = ConfigStore.get_config name (as_map file).
Proof.
  unfold get_config, ConfigStore.get_config, ConfigStore.readConfigs, as_map.
  by rewrite ord_get_to_map.
Qed.

Lemma post_configs_as_map (req_body : JsValue) (file : Members) :
  (post_configs req_body file).1 =
    (ConfigStore.post_configs req_body (as_map file)).1 /\
  as_map (post_configs req_body file).2 =
    (ConfigStore.post_configs req_body (as_map file)).2.
Proof.
  unfold post_configs, ConfigStore.post_configs.
  destruct (destructure req_body "name") as [name |]; [| done].
  destruct (destructure req_body "rules") as [rules |]; [| done].
  destruct (negb (truthy name)); [done |].
  destruct (call_trim name) as [t |]; [| done].
  destruct (negb (truthy (JStr t))); [done |].
  destruct (negb (truthy rules) || negb (isArray rules)); [done |].
  cbn [fst snd]. split; [done |].
  unfold as_map, ConfigStore.writeConfigs, ConfigStore.readConfigs.
  rewrite read_written by apply canonical_ord_set, read_canonical.
  apply to_map_ord_set.
Qed.

Lemma delete_config_as_map (name : string) (file : Members) :
  (delete_config name file).1 =
    (ConfigStore.delete_config name (as_map file)).1 /\
  as_map (delete_config name file).2 =
    (ConfigStore.delete_config name (as_map file)).2.
Proof.
  unfold delete_config, ConfigStore.delete_config, ConfigStore.readConfigs,
    ConfigStore.writeConfigs, as_map.
  rewrite ord_get_to_map.
  destruct (negb _); [done |]. cbn [fst snd]. split; [done |].
  rewrite read_written by apply canonical_ord_delete, read_canonical.
  apply to_map_ord_delete.
Qed.

Local Open Scope string_scope.

(** *** Validation of a save *)

Lemma accepted_save (req_body : JsValue) (file : Members) (t : string) :
  accepted req_body = Some t ->
  t <> "" /\
  exists rules,
    destructure req_body "rules" = Some (JArr rules) /\
    post_configs req_body file =
      (Json 200 (JObj [("ok", JBool true); ("name", JStr t)]),
       ord_set (readConfigs file) t (JArr rules)).
Proof.
  unfold accepted, post_configs.
  destruct (destructure req_body "name") as [[| | | | n | | | |] |]; try done.
  destruct (destructure req_body "rules") as [[| | | | | rules | | |] |];
    try done.
  destruct (String.eqb_spec (trim n) "") as [E | E]; [done |].
  intros [= <-]. split; [done |]. exists rules. split; [done |].
  assert (Hn : n <> "") by (intros ->; by apply E).
  apply ConfigStoreFacts.truthy_JStr in Hn.
  apply ConfigStoreFacts.truthy_JStr in E.
  rewrite Hn. cbn [negb call_trim]. by rewrite E.
Qed.

Lemma refused_save (req_body : JsValue) (file : Members) :
  accepted req_body = None ->
  (post_configs req_body file).2 = file /\
  forall reply, (post_configs req_body file).1 <> Json 200 reply.
Proof.
  unfold accepted, post_configs.
  destruct (destructure req_body "name") as [name |]; [| done].
  destruct (destructure req_body "rules") as [rules |];
    [| by destruct name].
  destruct (truthy name) eqn:Hn; [| done]. cbn [negb].
  destruct name; try done. cbn [call_trim].
  destruct (truthy (JStr (trim s))) eqn:Ht; [| done]. cbn [negb].
  apply ConfigStoreFacts.truthy_JStr in Ht.
  destruct rules; cbn [isArray negb]; rewrite ?orb_true_r; try done.
  destruct (String.eqb_spec (trim s) ""); done.
Qed.

Lemma listed_as_map (file : Members) (k : string) :
  k ∈ listed file <-> is_Some (as_map file !! k).
Proof.
  unfold listed, as_map. rewrite to_map_lookup.
  destruct (own_lookup (readConfigs file) k) as [v |] eqn:E.
  - split; [by eexists | intros _]. by eapply own_lookup_Some_key.
  - apply own_lookup_None in E. split; [done | by intros [? ?]].
Qed.

Lemma listed_file_after (rs : list Request) :
  listed (file_after rs []) = Object_keys (file_after rs []).
Proof.
  unfold listed. rewrite <- (read_written (file_after rs [])) at 2; [done |].
  apply file_after_canonical, canonical_nil.
Qed.

Lemma all_arrays_file_after (rs : list Request) (file : Members) :
  ConfigStore.all_arrays (as_map file) ->
  ConfigStore.all_arrays (as_map (file_after rs file)).
Proof.
  revert file. induction rs as [| r rs IH]; intros file Hf; [done |].
  cbn. apply IH. destruct r; cbn [serve snd]; try done.
  - destruct (post_configs_as_map req_body file) as [_ ->].
    by apply ConfigStoreFacts.all_arrays_post_configs.
  - destruct (delete_config_as_map name file) as [_ ->].
    by apply ConfigStoreFacts.all_arrays_delete_config.
Qed.

Lemma stored_is_array (rs : list Request) (k : string) (v : JsValue) :
  own_lookup (readConfigs (file_after rs [])) k = Some v ->
  exists rules, v = JArr rules.
Proof.
  intros H. rewrite <- to_map_lookup in H.
  eapply ConfigStoreFacts.stored_is_list; [| exact H].
  apply all_arrays_file_after. change (as_map []) with (∅ : gmap string JsValue).
  apply ConfigStoreFacts.all_arrays_empty.
Qed.

(** X2: on every document the handlers that keep the key order answer as
    the handlers on the map do, and leave the document that stands for
    the map those leave. *)
Theorem ordered_store_agrees_with_map (file : Members) (name : string)
    (req_body : JsValue) :
  get_config name file = ConfigStore.get_config name (as_map file) /\
  (post_configs req_body file).1 =
    (ConfigStore.post_configs req_body (as_map file)).1 /\
  as_map (post_configs req_body file).2 =
    (ConfigStore.post_configs req_body (as_map file)).2 /\
  (delete_config name file).1 =
    (ConfigStore.delete_config name (as_map file)).1 /\
  as_map (delete_config name file).2 =
    (ConfigStore.delete_config name (as_map file)).2.
Proof.
  destruct (post_configs_as_map req_body file).
  destruct (delete_config_as_map name file).
  split_and!; try done. apply get_config_as_map.
Qed.

Lemma read_canonical_id (o : Members) : canonical o -> readConfigs o = o.
Proof. apply parse_canonical. Qed.

Lemma dom_obj_set (m : gmap string JsValue) (t : string) (v : JsValue) :
  dom (obj_set m t v) =
    if String.eqb t "__proto__" then
      (if bool_decide (is_Some (m !! t)) then dom m ∪ {[t]} else dom m)
    else dom m ∪ {[t]}.
Proof.
  unfold obj_set. destruct (m !! t) eqn:E.
  - rewrite dom_insert_L. rewrite bool_decide_eq_true_2 by eauto.
    destruct (String.eqb t "__proto__"); apply union_comm_L.
  - rewrite bool_decide_eq_false_2 by (by intros [? ?]).
    destruct (String.eqb t "__proto__"); [done |].
    rewrite dom_insert_L. apply union_comm_L.
Qed.

Lemma names_step (r : Request) (file : Members) :
  ConfigStore.all_arrays (as_map file) ->
  dom (as_map (serve r file).2) = remember (dom (as_map file)) r.
Proof.
  intros Harr. destruct r; cbn [serve snd remember]; try done.
  - destruct (accepted req_body) as [t |] eqn:E.
    + destruct (accepted_save req_body file t E) as (_ & rules & _ & ->).
      cbn [snd]. unfold as_map at 1.
      rewrite read_canonical_id by apply canonical_ord_set, read_canonical.
      rewrite to_map_ord_set, dom_obj_set. fold (as_map file).
      destruct (String.eqb t "__proto__"); [| done].
      case_bool_decide as Hin; [| done].
      apply elem_of_dom in Hin. rewrite union_comm_L.
      apply subseteq_union_1_L. by apply singleton_subseteq_l.
    + by destruct (refused_save req_body file E) as [-> _].
  - destruct (delete_config_as_map name file) as [_ ->].
    unfold ConfigStore.delete_config, ConfigStore.readConfigs,
      ConfigStore.writeConfigs, obj_get, obj_delete.
    destruct (as_map file !! name) as [v |] eqn:E.
    + apply Harr in E. destruct v; try discriminate. cbn.
      by rewrite dom_delete_L.
    + apply not_elem_of_dom in E.
      destruct (negb _); cbn [snd]; [| by rewrite dom_delete_L].
      symmetry. apply difference_disjoint_L. by apply disjoint_singleton_r.
Qed.

Lemma names_run (rs : list Request) (file : Members) :
  ConfigStore.all_arrays (as_map file) ->
  dom (as_map (file_after rs file)) = foldl remember (dom (as_map file)) rs.
Proof.
  revert file. induction rs as [| r rs IH]; intros file Hf; [done |].
  cbn [file_after foldl]. fold (file_after rs (serve r file).2).
  rewrite IH, names_step; [done | done |].
  apply (all_arrays_file_after [r]), Hf.
Qed.

(** X3: after any sequence of config requests on the empty document, the
    names [GET /api/configs] answers with are exactly the names saved by
    an accepted request and not deleted since, each once; a save under
    [__proto__] adds none. *)
Theorem listing_reflects_history (rs : list Request) (k : string) :
  let file := file_after rs [] in
  get_configs file =
    Json 200 (JObj [("ok", JBool true);
                    ("names", JArr (map JStr (listed file)))]) /\
  NoDup (listed file) /\
  (k ∈ listed file <-> k ∈ saved_names rs).
Proof.
  intros file. split_and!; [done | apply read_canonical |].
  rewrite listed_as_map, <- elem_of_dom. unfold file.
  rewrite names_run.
  - change (as_map []) with (∅ : gmap string JsValue). by rewrite dom_empty_L.
  - change (as_map []) with (∅ : gmap string JsValue).
    apply ConfigStoreFacts.all_arrays_empty.
Qed.

Lemma ordered_pairs (lo : Z) (o : Members) :
  ordered_from lo o ->
  (forall i k a, Object_keys o !! i = Some k -> array_index k = Some a ->
                 lo < a) /\
  (forall i j ki kj,
     Object_keys o !! i = Some ki -> Object_keys o !! j = Some kj ->
     (i < j)%nat ->
     match array_index ki, array_index kj with
     | Some a, Some b => a < b
     | None, Some _ => False
     | _, None => True
     end).
Proof.
  revert lo. induction o as [| [k v] o IH]; intros lo Ho.
  - split; intros; by try match goal with H : _ !! _ = Some _ |- _ =>
                             rewrite lookup_nil in H end.
  - cbn in Ho. destruct (array_index k) as [n |] eqn:Hk.
    + destruct Ho as [Hlo Ho]. destruct (IH n Ho) as [IH1 IH2]. split.
      * intros [| i] k' a Hi Ha; cbn in Hi.
        -- injection Hi as <-. congruence.
        -- specialize (IH1 i k' a Hi Ha). lia.
      * intros [| i] [| j] ki kj Hi Hj Hij; cbn in Hi, Hj; try lia.
        -- injection Hi as <-. rewrite Hk.
           destruct (array_index kj) as [b |] eqn:Hb; [| done].
           by apply (IH1 j kj).
        -- apply (IH2 i j); [done | done | lia].
    + assert (Hnone : forall i k', Object_keys o !! i = Some k' ->
                                   array_index k' = None).
      { intros i k' Hi. unfold Object_keys in Hi.
        apply list_lookup_fmap_Some in Hi as ([k2 v2] & -> & Hi).
        by apply (Forall_lookup_1 _ _ _ _ Ho Hi). }
      split.
      * intros [| i] k' a Hi Ha; cbn in Hi.
        -- injection Hi as <-. congruence.
        -- apply Hnone in Hi. congruence.
      * intros [| i] [| j] ki kj Hi Hj Hij; cbn in Hi, Hj; try lia.
        -- injection Hi as <-. rewrite Hk. by rewrite (Hnone j kj).
        -- rewrite (Hnone i ki), (Hnone j kj); done.
Qed.

(** X4: whatever the document holds, the listing puts the names that are
    array indices first, in ascending numeric order, and the other names
    after them: of two listed names the later one is never an index
    unless the earlier one is a smaller index. *)
Theorem listing_order (file : Members) (i j : nat) (ki kj : string) :
  listed file !! i = Some ki ->
  listed file !! j = Some kj ->
  (i < j)%nat ->
  ki <> kj /\
  match array_index ki, array_index kj with
  | Some a, Some b => a < b
  | None, Some _ => False
  | _, None => True
  end.
Proof.
  intros Hi Hj Hij. destruct (read_canonical file) as [Hnd Ho]. split.
  - intros ->. assert (i = j); [| lia].
    by eapply NoDup_lookup.
  - by eapply (proj2 (ordered_pairs _ _ Ho)).
Qed.

(** X5: an accepted save leaves the listing as it is when the name is
    already listed or is [__proto__]; a new name that is not an array
    index is added at the end; a new name that is an array index is added
    once, the other names keeping their order. *)
Theorem save_places_name_in_listing (file : Members) (name : string)
    (rules : list JsValue) :
  trim name <> "" ->
  let t := trim name in
  let file' :=
    (post_configs (ConfigStore.save_body (JStr name) (JArr rules)) file).2 in
  if bool_decide (t ∈ listed file) then listed file' = listed file
  else if String.eqb t "__proto__" then listed file' = listed file
  else match array_index t with
       | None => listed file' = (listed file ++ [t])%list
       | Some _ => exists before after : list string,
                     listed file = (before ++ after)%list /\
                     listed file' = (before ++ t :: after)%list
       end.
Proof.
  intros Ht t file'.
  assert (Ha : accepted (ConfigStore.save_body (JStr name) (JArr rules))
               = Some t).
  { unfold accepted. cbn. fold t. by destruct (String.eqb_spec t ""). }
  destruct (accepted_save _ file t Ha) as (_ & rules' & _ & E).
  unfold file'. rewrite E. cbn [snd].
  assert (Hl : listed (ord_set (readConfigs file) t (JArr rules')) =
               Object_keys (ord_set (readConfigs file) t (JArr rules'))).
  { unfold listed.
    by rewrite read_canonical_id by apply canonical_ord_set, read_canonical. }
  rewrite !Hl. clear Hl. unfold ord_set.
  destruct (own_lookup (readConfigs file) t) as [w |] eqn:Hw.
  - apply own_lookup_Some_key in Hw. fold (listed file) in Hw.
    rewrite bool_decide_eq_true_2 by done. apply keys_replace_value.
  - apply own_lookup_None in Hw. fold (listed file) in Hw.
    rewrite bool_decide_eq_false_2 by done.
    destruct (String.eqb t "__proto__"); [done |].
    unfold define_own. destruct (array_index t) as [n |].
    + destruct (insert_index_split (readConfigs file) n t (JArr rules'))
        as (o1 & o2 & E1 & ->).
      exists (Object_keys o1), (Object_keys o2). unfold listed.
      rewrite E1, !keys_app. done.
    + by rewrite keys_app.
Qed.

(** X6: after any sequence of config requests on the empty document, a
    delete request leaves in the listing every other name, in the same
    order, and never the name it was given, whether it answers 200 or
    404. *)
Theorem delete_filters_listing (rs : list Request) (name : string) :
  let file := file_after rs [] in
  listed (delete_config name file).2 =
    List.filter (fun k => negb (String.eqb k name)) (listed file).
Proof.
  intros file. unfold delete_config, ord_get.
  destruct (own_lookup (readConfigs file) name) as [v |] eqn:E.
  - destruct (stored_is_array rs name v E) as [rules ->]. cbn.
    unfold listed, writeConfigs.
    rewrite read_canonical_id by apply canonical_ord_delete, read_canonical.
    apply keys_ord_delete.
  - assert (Hid : List.filter (fun k => negb (String.eqb k name)) (listed file)
                  = listed file).
    { unfold listed. rewrite <- keys_ord_delete. by rewrite ord_delete_absent. }
    destruct (negb _); cbn [snd]; [by rewrite Hid |].
    unfold listed, writeConfigs.
    rewrite read_canonical_id by apply canonical_ord_delete, read_canonical.
    apply keys_ord_delete.
Qed.

(** X7: after any sequence of config requests on the empty document, get
    and delete answer 404 for a name exactly when the name is neither
    listed nor a member of [Object.prototype]; a listed name is answered
    with its rule list. *)
Theorem not_found_iff (rs : list Request) (name : string) :
  let file := file_after rs [] in
  (get_config name file = Json 404 (ok_false "Config not found") <->
   (name ∉ listed file) /\ ConfigStore.inherited name = false) /\
  ((delete_config name file).1 = Json 404 (ok_false "Config not found") <->
   (name ∉ listed file) /\ ConfigStore.inherited name = false) /\
  (name ∈ listed file <->
   exists rules,
     own_lookup file name = Some (JArr rules) /\
     get_config name file =
       Json 200 (JObj [("ok", JBool true); ("name", JStr name);
                       ("rules", JArr rules)])).
Proof.
  intros file.
  assert (Hread : readConfigs file = file).
  { apply read_canonical_id, file_after_canonical, canonical_nil. }
  unfold get_config, delete_config, ord_get, listed,
    ConfigStore.inherited.
  destruct (own_lookup (readConfigs file) name) as [v |] eqn:E.
  - destruct (stored_is_array rs name v E) as [rules ->]. cbn.
    pose proof (own_lookup_Some_key _ _ _ E) as Hin.
    split_and!; try (split; [discriminate | by intros [? _]]).
    split; [intros _ | done]. exists rules. by rewrite <- Hread at 1.
  - pose proof (proj1 (own_lookup_None _ _) E) as Hout.
    destruct (truthy (object_prototype_get name)); cbn.
    + split_and!; try (split; [discriminate | by intros [_ ?]]).
      split; [done |]. intros (rules & H & _). rewrite <- Hread in H.
      congruence.
    + split_and!; try done.
      split; [done |]. intros (rules & H & _). rewrite <- Hread in H.
      congruence.
Qed.

(** X8: a save is answered 200 exactly when the name of the request is a
    string whose trim is not empty and its rules are an array; every
    other request leaves the document as it was. *)
Theorem save_accepted_iff (req_body : JsValue) (file : Members) :
  ((exists reply, (post_configs req_body file).1 = Json 200 reply) <->
   (exists name rules,
      destructure req_body "name" = Some (JStr name) /\
      trim name <> "" /\
      destructure req_body "rules" = Some (JArr rules))) /\
  ((forall reply, (post_configs req_body file).1 <> Json 200 reply) ->
   (post_configs req_body file).2 = file).
Proof.
  destruct (accepted req_body) as [t |] eqn:E.
  - destruct (accepted_save req_body file t E) as (Ht & rules & Hr & ->).
    cbn [fst snd]. split.
    + split; [intros _ | by eexists].
      unfold accepted in E. rewrite Hr in E.
      destruct (destructure req_body "name") as [[| | | | n | | | |] |];
        try done.
      exists n, rules. split_and!; try done.
      destruct (String.eqb_spec (trim n) ""); [done | congruence].
    + intros H. by destruct (H (JObj [("ok", JBool true); ("name", JStr t)])).
  - destruct (refused_save req_body file E) as [Hfile Hreply]. split.
    + split; [intros [reply H]; by destruct (Hreply reply) |].
      intros (n & rules & Hn & Ht & Hr). unfold accepted in E.
      rewrite Hn, Hr in E. by destruct (String.eqb_spec (trim n) "").
    + done.
Qed.

(** X9: saving under a name that the document does not hold and deleting
    that name again leaves the document as it was read, with the same
    keys in the same order; the delete answers 200.  This holds for
    [__proto__] too, where neither request changes the document. *)
Theorem save_then_delete_restores (file : Members) (name : string)
    (rules : list JsValue) :
  trim name <> "" ->
  own_lookup (readConfigs file) (trim name) = None ->
  let saved :=
    (post_configs (ConfigStore.save_body (JStr name) (JArr rules)) file).2 in
  delete_config (trim name) saved =
    (Json 200 (JObj [("ok", JBool true)]), readConfigs file).
Proof.
  intros Ht Habs saved.
  assert (Ha : accepted (ConfigStore.save_body (JStr name) (JArr rules))
               = Some (trim name)).
  { unfold accepted. cbn. by destruct (String.eqb_spec (trim name) ""). }
  destruct (accepted_save _ file _ Ha) as (_ & rules' & Hr & E).
  injection Hr as <-. unfold saved. rewrite E. cbn [snd].
  unfold delete_config.
  rewrite read_canonical_id by apply canonical_ord_set, read_canonical.
  unfold ord_set, ord_get, writeConfigs. rewrite Habs.
  destruct (String.eqb_spec (trim name) "__proto__") as [Ep | Ep].
  - rewrite Habs, ord_delete_absent by done. by rewrite Ep.
  - rewrite own_lookup_define_own, String.eqb_refl by done. cbn.
    by rewrite ord_delete_define_own.
Qed.

Lemma replace_value_define_own (o : Members) (k : string) (v1 v2 : JsValue) :
  own_lookup o k = None ->
  replace_value (define_own o k v1) k v2 = define_own o k v2.
Proof.
  intros Hk. unfold define_own. destruct (array_index k) as [n |] eqn:Hn.
  - clear Hk. induction o as [| [k' w] o IH]; cbn.
    + by rewrite String.eqb_refl.
    + destruct (array_index k') as [m |] eqn:Hk'.
      * destruct (Z.ltb_spec m n); cbn.
        -- destruct (String.eqb_spec k' k) as [-> | _].
           ++ assert (m = n) by congruence. lia.
           ++ by rewrite IH.
        -- by rewrite String.eqb_refl.
      * cbn. by rewrite String.eqb_refl.
  - rewrite replace_value_app_r by done. cbn. by rewrite String.eqb_refl.
Qed.

(** X10: of two accepted saves under names with the same trim the second
    alone decides the document: its rules stand under the name, at the
    place in the key order that the second save alone would give. *)
Theorem last_save_wins (file : Members) (name1 name2 : string)
    (rules1 rules2 : list JsValue) :
  trim name1 = trim name2 ->
  trim name2 <> "" ->
  let first :=
    (post_configs (ConfigStore.save_body (JStr name1) (JArr rules1)) file).2 in
  (post_configs (ConfigStore.save_body (JStr name2) (JArr rules2)) first).2 =
  (post_configs (ConfigStore.save_body (JStr name2) (JArr rules2)) file).2.
Proof.
  intros Eq Ht first. set (t := trim name2) in *.
  assert (Ha : forall n r, trim n = t ->
             accepted (ConfigStore.save_body (JStr n) (JArr r)) = Some t).
  { intros n r En. unfold accepted. cbn. rewrite En.
    by destruct (String.eqb_spec t ""). }
  destruct (accepted_save _ file _ (Ha name1 rules1 Eq)) as (_ & r1 & H1 & E1).
  destruct (accepted_save _ file _ (Ha name2 rules2 eq_refl))
    as (_ & r2 & H2 & E2).
  destruct (accepted_save _ first _ (Ha name2 rules2 eq_refl))
    as (_ & r3 & H3 & E3).
  injection H1 as <-. injection H2 as <-. injection H3 as <-.
  rewrite E2, E3. cbn [snd]. unfold first. rewrite E1. cbn [snd].
  rewrite read_canonical_id by apply canonical_ord_set, read_canonical.
  unfold ord_set.
  destruct (own_lookup (readConfigs file) t) as [w |] eqn:Hw.
  - rewrite own_lookup_replace_value, String.eqb_refl, Hw. cbn.
    apply replace_value_twice.
  - destruct (String.eqb t "__proto__"); [by rewrite Hw |].
    rewrite own_lookup_define_own, String.eqb_refl by done.
    by apply replace_value_define_own.
Qed.


(** *** The theorems at concrete documents *)

Lemma listing_order_witness :
  listed [("b", JArr []); ("10", JArr []); ("2", JArr [])] !! 0%nat
    = Some "2" /\
  listed [("b", JArr []); ("10", JArr []); ("2", JArr [])] !! 2%nat
    = Some "b" /\
  (0 < 2)%nat /\
  "2" <> "b" /\
  match array_index "2", array_index "b" with
  | Some a, Some b => (a < b)%Z
  | None, Some _ => False
  | _, None => True
  end.
Proof.
  split; [reflexivity |]. split; [reflexivity |]. split; [lia |].
  apply (listing_order [("b", JArr []); ("10", JArr []); ("2", JArr [])]
           0 2 "2" "b"); [reflexivity | reflexivity | lia].
Defined.

Lemma save_places_name_in_listing_witness :
  trim " a " <> "" /\
  listed (post_configs (ConfigStore.save_body (JStr " a ") (JArr []))
            [("b", JArr [])]).2 =
  (listed [("b", JArr [])] ++ ["a"])%list.
Proof.
  split; [discriminate |].
  pose proof (save_places_name_in_listing [("b", JArr [])] " a " []) as H.
  cbv zeta in H. apply H. discriminate.
Defined.

Lemma save_then_delete_restores_witness :
  trim "x" <> "" /\
  own_lookup (readConfigs [("b", JArr [])]) (trim "x") = None /\
  delete_config (trim "x")
    (post_configs (ConfigStore.save_body (JStr "x") (JArr [JNum 1]))
       [("b", JArr [])]).2 =
  (Json 200 (JObj [("ok", JBool true)]), readConfigs [("b", JArr [])]).
Proof.
  split; [discriminate |]. split; [reflexivity |].
  apply (save_then_delete_restores [("b", JArr [])] "x" [JNum 1]);
    [discriminate | reflexivity].
Defined.

Lemma last_save_wins_witness :
  trim " a" = trim "a " /\
  trim "a " <> "" /\
  (post_configs (ConfigStore.save_body (JStr "a ") (JArr [JNum 2]))
     (post_configs (ConfigStore.save_body (JStr " a") (JArr [JNum 1]))
        []).2).2 =
  (post_configs (ConfigStore.save_body (JStr "a ") (JArr [JNum 2])) []).2.
Proof.
  split; [reflexivity |]. split; [discriminate |].
  apply (last_save_wins [] " a" "a " [JNum 1] [JNum 2]);
    [reflexivity | discriminate].
Defined.


End FileStoreFacts.

(** ** Histories of the server *)

Module ServerHistoryFacts.
Import Server ServerFacts ServerHistory.

Lemma make_event_logged (log : list Event) (h : gmap string JsValue)
    (b : JsValue) (now : Z) :
  make_event log h b now = logged (length log) (h, b, now).
Proof.
  unfold make_event, logged. cbn [fst snd].
  by rewrite !obj_get_plain by auto.
Qed.

Lemma published_logged (tr : list Callback) (s : State) :
  published tr s =
    imap (fun i => logged (length (webhooks s) + i)) (receive_calls tr).
Proof.
  revert s. induction tr as [| c tr IH]; intros s; [done |].
  cbn [published]. rewrite IH, handle_webhooks.
  destruct c; rewrite ?app_nil_r; try done.
  change (receive_calls (POST_webhook_receive req_headers req_body now :: tr))
    with ((req_headers, req_body, now) :: receive_calls tr).
  rewrite imap_cons, make_event_logged, Nat.add_0_r. f_equal.
  apply imap_ext. intros i call _. cbn. rewrite length_app. cbn [length].
  f_equal. lia.
Qed.

(** X12: the log after a run from the initial state is the list of the
    receive calls of the run, in arrival order: entry [n] carries the id
    [n + 1], the clock reading, the two kept headers and the body of the
    receive call number [n], and nothing else is in the log. *)
Theorem log_records_receive_calls (tr : list Callback) :
  webhooks (state_after tr init) = imap logged (receive_calls tr).
Proof.
  rewrite webhooks_state_after, published_logged. cbn [webhooks init app].
  apply imap_ext. intros i call _. done.
Qed.

(** X11: the event a receive call is acknowledged for stays in the log for
    good, unchanged, at the position its id names: after any further run,
    the entry number [id - 1] of the log is that event. *)
Theorem acknowledged_event_stays (before after : list Callback)
    (h : gmap string JsValue) (b : JsValue) (now : Z) :
  let s := state_after before init in
  let e := make_event (webhooks s) h b now in
  let final := state_after (POST_webhook_receive h b now :: after) s in
  (handle (POST_webhook_receive h b now) s).1 =
    Replied (Json 200 (JObj [("ok", JBool true); ("id", JNum (id e))]%string)) /\
  webhooks final !! Z.to_nat (id e - 1) = Some e /\
  webhooks s `prefix_of` webhooks final.
Proof.
  intros s e final. split_and!; [done | |].
  - unfold final. rewrite state_after_cons, webhooks_state_after.
    rewrite handle_receive. cbn [snd webhooks]. fold e.
    replace (Z.to_nat (id e - 1)) with (length (webhooks s))
      by (cbn [id e make_event]; lia).
    rewrite <- app_assoc. cbn [app]. by apply list_lookup_middle.
  - unfold final. rewrite webhooks_state_after. by apply prefix_app_r.
Qed.

(** *** What the subscribers have been sent *)

Lemma stream_step (c : Callback) (s : State) (r : Res) :
  Shape s ->
  received s r `prefix_of` map SseData (webhooks s) ->
  (r ∈ sseClients s -> received s r = map SseData (webhooks s)) ->
  received (handle c s).2 r `prefix_of` map SseData (webhooks (handle c s).2) /\
  (r ∈ sseClients (handle c s).2 ->
   received (handle c s).2 r = map SseData (webhooks (handle c s).2)).
Proof.
  intros [_ Hnd Hiss Hfresh _] Hpre Hfull. unfold received in *.
  destruct c; cbn [handle].
  - done.
  - by destruct (ConfigStore.post_configs _ _).
  - by destruct (ConfigStore.delete_config _ _).
  - cbn. rewrite map_app. destruct (decide (r ∈ sseClients s)) as [Hin | Hout].
    + rewrite fan_out_present by done. rewrite (Hfull Hin). done.
    + rewrite fan_out_absent by done. split; [by apply prefix_app_r | done].
  - cbn. destruct (decide (r = next_res s)) as [-> | Hne].
    + rewrite replay_same, Hfresh by lia. done.
    + rewrite replay_other by done. split; [done |].
      intros [Hin | Hin%list_elem_of_singleton]%elem_of_app; [auto | done].
  - cbn [snd]. destruct (on_close_rest res s) as (_ & -> & -> & _).
    rewrite on_close_clients. split; [done |]. intros Hin. apply Hfull.
    eapply elem_of_sublist; [exact Hin | apply remove_first_sublist].
Qed.

(** X13: in every state the server reaches, what any response has been
    sent is a prefix of the log, event for event; for a registered
    response it is the whole log. *)
Theorem streams_are_log_prefixes (tr : list Callback) (r : Res) :
  let s := state_after tr init in
  received s r `prefix_of` map SseData (webhooks s) /\
  (r ∈ sseClients s -> received s r = map SseData (webhooks s)).
Proof.
  cbn zeta.
  assert (H : forall s, Shape s ->
            received s r `prefix_of` map SseData (webhooks s) ->
            (r ∈ sseClients s -> received s r = map SseData (webhooks s)) ->
            received (state_after tr s) r
              `prefix_of` map SseData (webhooks (state_after tr s)) /\
            (r ∈ sseClients (state_after tr s) ->
             received (state_after tr s) r
               = map SseData (webhooks (state_after tr s)))).
  { induction tr as [| c tr IH]; intros s Hs Hp Hf; [done |].
    rewrite state_after_cons.
    destruct (stream_step c s r Hs Hp Hf) as [Hp' Hf'].
    apply IH; auto using Shape_handle. }
  apply H; [apply Shape_init | |]; cbn.
  - unfold received. cbn. by rewrite lookup_total_empty.
  - intros Hin. by apply elem_of_nil in Hin.
Qed.

(** X14: in every state the server reaches, a receive call writes its
    event once to each registered response and nothing to any other, and
    leaves the registrations as they are. *)
Theorem publish_reaches_each_subscriber_once (tr : list Callback)
    (h : gmap string JsValue) (b : JsValue) (now : Z) (r : Res) :
  let s := state_after tr init in
  let s' := (handle (POST_webhook_receive h b now) s).2 in
  received s' r =
    received s r ++
    (if bool_decide (r ∈ sseClients s)
     then [SseData (make_event (webhooks s) h b now)] else []) /\
  sseClients s' = sseClients s.
Proof.
  intros s s'. split; [| done].
  pose proof (Shape_reachable tr) as [_ Hnd _ _ _]. fold s in Hnd.
  unfold s', received. rewrite handle_receive. cbn [snd wire].
  case_bool_decide as Hin.
  - by rewrite fan_out_present.
  - rewrite fan_out_absent by done. by rewrite app_nil_r.
Qed.

Lemma filter_absent (l : list Res) (r : Res) :
  r ∉ l -> filter (fun x => x <> r) l = l.
Proof.
  induction l as [| x l IH]; intros Hr; [done |].
  apply not_elem_of_cons in Hr as [Hne Hr].
  rewrite filter_cons_True by congruence. by rewrite IH.
Qed.

Lemma remove_first_filter (l : list Res) (r : Res) :
  NoDup l -> remove_first r l = filter (fun x => x <> r) l.
Proof.
  induction l as [| x l IH]; intros Hnd; [done |].
  apply NoDup_cons in Hnd as [Hx Hnd]. cbn [remove_first].
  destruct (Nat.eqb_spec x r) as [-> | Hne].
  - rewrite filter_cons_False by (intros ?; done). by rewrite filter_absent.
  - rewrite filter_cons_True by done. by rewrite IH.
Qed.

(** X15: in every state the server reaches, the [close] listener of a
    response takes that response, and no other, out of [sseClients]; the
    remaining responses keep their order, and the log, the document and
    everything written so far are untouched. *)
Theorem close_removes_only_its_response (tr : list Callback) (r : Res) :
  let s := state_after tr init in
  sseClients (on_close r s) = filter (fun x => x <> r) (sseClients s) /\
  webhooks (on_close r s) = webhooks s /\
  wire (on_close r s) = wire s /\
  configs_file (on_close r s) = configs_file s.
Proof.
  intros s. destruct (on_close_rest r s) as (? & ? & ? & _).
  split_and!; try done.
  rewrite on_close_clients. apply remove_first_filter.
  apply (shape_nodup s), Shape_reachable.
Qed.

Lemma config_handle (c : Callback) (s : State) :
  is_config_request c = true ->
  exists reply file,
    forall s', configs_file s' = configs_file s ->
               handle c s' = (reply, with_file s' file).
Proof.
  destruct c; try discriminate; intros _; cbn [handle].
  - exists (Replied (ConfigStore.get_config name (configs_file s))),
           (configs_file s).
    intros [f w c wi n] E. cbn in E. subst f. done.
  - destruct (ConfigStore.post_configs req_body (configs_file s))
      as [o f] eqn:E.
    exists (Replied o), f. intros s' ->. by rewrite E.
  - destruct (ConfigStore.delete_config name (configs_file s)) as [o f] eqn:E.
    exists (Replied o), f. intros s' ->. by rewrite E.
Qed.

Lemma event_handle (e : Callback) (s : State) (file : gmap string JsValue) :
  is_config_request e = false ->
  configs_file (handle e s).2 = configs_file s /\
  handle e (with_file s file) =
    ((handle e s).1, with_file (handle e s).2 file).
Proof.
  destruct e; try discriminate; intros _; cbn [handle]; try done.
  cbn [fst snd]. split; [apply on_close_rest |].
  unfold on_close. cbn [sseClients with_file]. by destruct (negb _).
Qed.

(** X16: a config request and a request of the event side do not see each
    other: run in either order from any state they give the same replies
    and the same final state. *)
Theorem config_and_event_requests_commute (s : State) (c e : Callback) :
  is_config_request c = true ->
  is_config_request e = false ->
  state_after [c; e] s = state_after [e; c] s /\
  replies [c; e] s = rev (replies [e; c] s).
Proof.
  intros Hc He.
  destruct (config_handle c s Hc) as (rc & file & Hcfg).
  destruct (event_handle e s file He) as [Hfile Hev].
  unfold state_after, replies. cbn [run].
  rewrite (Hcfg s eq_refl), Hev, (surjective_pairing (handle e s)).
  rewrite (Hcfg (handle e s).2 Hfile). done.
Qed.

Lemma config_and_event_requests_commute_witness :
  is_config_request
    (POST_configs (ConfigStore.save_body (JStr "a") (JArr []))) = true /\
  is_config_request GET_events = false /\
  state_after
    [POST_configs (ConfigStore.save_body (JStr "a") (JArr [])); GET_events]
    init =
  state_after
    [GET_events; POST_configs (ConfigStore.save_body (JStr "a") (JArr []))]
    init.
Proof.
  split; [reflexivity |]. split; [reflexivity |].
  apply (config_and_event_requests_commute init
           (POST_configs (ConfigStore.save_body (JStr "a") (JArr [])))
           GET_events); reflexivity.
Defined.

End ServerHistoryFacts.
